(** * A shallow embedding of [resource-library.js]

    The Vue component's query-parameter engine: [serializeParams],
    [unserializeParams], the computed [query_params] and [pages], the
    public methods that mutate [params], the [params] watcher, the history
    listener of [__initHistory] and [__fetchData].

    JavaScript values are modelled as follows.
    - Numbers are integers ([Z]); the codec facts below are stated for safe
      integers (magnitude below 2^53), whose [JSON.stringify] is the plain
      decimal literal.
    - Strings are [String.string], one 8-bit character per UTF-16 code unit
      (so code units U+0000..U+00FF).
    - A plain object is the list of its own properties in enumeration order;
      creating a property appends it.  (Array-index keys, which JavaScript
      enumerates first, are not reordered; no claim depends on the
      enumeration order of such keys.) *)

From Stdlib Require Import String Ascii List Bool ZArith Lia Arith.
From Stdlib Require Import DecimalN DecimalPos.
Set Warnings "-register-all".
Import ListNotations.
Open Scope list_scope.
Open Scope string_scope.
Open Scope nat_scope.

(** ** JSON values *)

Inductive json : Type :=
| JNull
| JBool (b : bool)
| JNum (n : Z)
| JStr (s : string)
| JArr (vs : list json)
| JObj (kvs : list (string * json)).

(** Strong induction principle for the nested type. *)
Section json_rect.
Variable P : json -> Prop.
Hypothesis HNull : P JNull.
Hypothesis HBool : forall b, P (JBool b).
Hypothesis HNum : forall n, P (JNum n).
Hypothesis HStr : forall s, P (JStr s).
Hypothesis HArr : forall vs, Forall P vs -> P (JArr vs).
Hypothesis HObj : forall kvs, Forall (fun kv => P (snd kv)) kvs -> P (JObj kvs).

Fixpoint json_ind' (v : json) : P v :=
  match v with
  | JNull => HNull
  | JBool b => HBool b
  | JNum n => HNum n
  | JStr s => HStr s
  | JArr vs =>
      HArr vs
        ((fix go (l : list json) : Forall P l :=
            match l with
            | [] => Forall_nil _
            | x :: r => Forall_cons _ (json_ind' x) (go r)
            end) vs)
  | JObj kvs =>
      HObj kvs
        ((fix go (l : list (string * json)) : Forall (fun kv => P (snd kv)) l :=
            match l with
            | [] => Forall_nil _
            | x :: r => Forall_cons _ (json_ind' (snd x)) (go r)
            end) kvs)
  end.
End json_rect.

Fixpoint json_eqb (a b : json) : bool :=
  match a, b with
  | JNull, JNull => true
  | JBool x, JBool y => Bool.eqb x y
  | JNum x, JNum y => Z.eqb x y
  | JStr x, JStr y => String.eqb x y
  | JArr xs, JArr ys =>
      (fix go (l1 l2 : list json) : bool :=
         match l1, l2 with
         | [], [] => true
         | x :: r1, y :: r2 => json_eqb x y && go r1 r2
         | _, _ => false
         end) xs ys
  | JObj xs, JObj ys =>
      (fix go (l1 l2 : list (string * json)) : bool :=
         match l1, l2 with
         | [], [] => true
         | (k1, x) :: r1, (k2, y) :: r2 =>
             String.eqb k1 k2 && json_eqb x y && go r1 r2
         | _, _ => false
         end) xs ys
  | _, _ => false
  end.

(** JavaScript truthiness ([!!v]) of a JSON value: arrays and objects are
    always truthy, even when empty. *)
Definition truthy (v : json) : bool :=
  match v with
  | JNull => false
  | JBool b => b
  | JNum n => negb (Z.eqb n 0)
  | JStr s => negb (String.eqb s "")
  | JArr _ => true
  | JObj _ => true
  end.

Section Props.
Context {A : Type}.

(** Own-property read of a plain object. *)
Fixpoint get_prop (k : string) (o : list (string * A)) : option A :=
  match o with
  | [] => None
  | (k', v) :: r => if String.eqb k k' then Some v else get_prop k r
  end.

(** Create or overwrite an own data property ([CreateDataProperty], as
    [JSON.parse] does): overwrite in place, else append. *)
Fixpoint define_prop (k : string) (v : A) (o : list (string * A)) : list (string * A) :=
  match o with
  | [] => [(k, v)]
  | (k', v') :: r =>
      if String.eqb k k' then (k', v) :: r else (k', v') :: define_prop k v r
  end.

(** Assignment [o[k] = v] on an ordinary object: the key ["__proto__"]
    hits the inherited accessor of [Object.prototype] and creates no own
    property (the prototype change is not modelled). *)
Definition set_prop (k : string) (v : A) (o : list (string * A)) : list (string * A) :=
  if String.eqb k "__proto__" then o else define_prop k v o.

(** [delete o[k]] *)
Fixpoint delete_prop (k : string) (o : list (string * A)) : list (string * A) :=
  match o with
  | [] => []
  | (k', v') :: r => if String.eqb k k' then r else (k', v') :: delete_prop k r
  end.
End Props.

(** ** Characters, hexadecimal and decimal digits *)

Definition code (c : ascii) : nat := nat_of_ascii c.
Definition chr (n : nat) : ascii := ascii_of_nat n.

Definition hex_upper (n : nat) : ascii :=
  if n <? 10 then chr (48 + n) else chr (55 + n).
Definition hex_lower (n : nat) : ascii :=
  if n <? 10 then chr (48 + n) else chr (87 + n).

Definition hex_val (c : ascii) : option nat :=
  let n := code c in
  if (48 <=? n) && (n <=? 57) then Some (n - 48)
  else if (65 <=? n) && (n <=? 70) then Some (n - 55)
  else if (97 <=? n) && (n <=? 102) then Some (n - 87)
  else None.

Definition is_digit (c : ascii) : bool :=
  let n := code c in (48 <=? n) && (n <=? 57).

Fixpoint string_of_uint (d : Decimal.uint) : string :=
  match d with
  | Decimal.Nil => ""
  | Decimal.D0 d => String "0" (string_of_uint d)
  | Decimal.D1 d => String "1" (string_of_uint d)
  | Decimal.D2 d => String "2" (string_of_uint d)
  | Decimal.D3 d => String "3" (string_of_uint d)
  | Decimal.D4 d => String "4" (string_of_uint d)
  | Decimal.D5 d => String "5" (string_of_uint d)
  | Decimal.D6 d => String "6" (string_of_uint d)
  | Decimal.D7 d => String "7" (string_of_uint d)
  | Decimal.D8 d => String "8" (string_of_uint d)
  | Decimal.D9 d => String "9" (string_of_uint d)
  end.

Definition digit_cons (c : ascii) : option (Decimal.uint -> Decimal.uint) :=
  match code c with
  | 48 => Some Decimal.D0 | 49 => Some Decimal.D1 | 50 => Some Decimal.D2
  | 51 => Some Decimal.D3 | 52 => Some Decimal.D4 | 53 => Some Decimal.D5
  | 54 => Some Decimal.D6 | 55 => Some Decimal.D7 | 56 => Some Decimal.D8
  | 57 => Some Decimal.D9 | _ => None
  end.

(** Greedy read of a run of decimal digits. *)
Fixpoint read_digits (s : string) : Decimal.uint * string :=
  match s with
  | EmptyString => (Decimal.Nil, s)
  | String c r =>
      match digit_cons c with
      | Some k => let (d, rest) := read_digits r in (k d, rest)
      | None => (Decimal.Nil, s)
      end
  end.

(** [Number.prototype.toString] / [JSON.stringify] of an integer. *)
Definition string_of_Z (z : Z) : string :=
  match z with
  | Z0 => "0"
  | Zpos p => string_of_uint (Pos.to_uint p)
  | Zneg p => String "-" (string_of_uint (Pos.to_uint p))
  end.

Definition dquote : ascii := "034"%char.
Definition backslash : ascii := "092"%char.

(** ** [encodeURIComponent] and [decodeURIComponent] *)

Definition uri_unreserved (c : ascii) : bool :=
  let n := code c in
  ((65 <=? n) && (n <=? 90)) || ((97 <=? n) && (n <=? 122))
  || ((48 <=? n) && (n <=? 57))
  || existsb (Nat.eqb n) [45; 95; 46; 33; 126; 42; 39; 40; 41].

Definition pct (b : nat) : string :=
  String "%" (String (hex_upper (b / 16)) (String (hex_upper (b mod 16)) "")).

(** One code unit: kept, or its UTF-8 bytes percent-encoded. *)
Definition encode_char (c : ascii) : string :=
  if uri_unreserved c then String c ""
  else if code c <? 128 then pct (code c)
  else pct (192 + code c / 64) ++ pct (128 + code c mod 64).

Fixpoint encodeURIComponent (s : string) : string :=
  match s with
  | EmptyString => ""
  | String c r => encode_char c ++ encodeURIComponent r
  end.

(** [None] is a thrown [URIError]; a valid sequence decoding to a code
    point above U+00FF lies outside the 8-bit string model and is also
    [None]. *)
Fixpoint decodeURIComponent (s : string) : option string :=
  match s with
  | EmptyString => Some ""
  | String c r =>
      if Ascii.eqb c "%" then
        match r with
        | String h1 (String h2 r1) =>
            match hex_val h1, hex_val h2 with
            | Some a, Some b =>
                let b1 := a * 16 + b in
                if b1 <? 128 then option_map (String (chr b1)) (decodeURIComponent r1)
                else if (194 <=? b1) && (b1 <=? 195) then
                  match r1 with
                  | String p (String h3 (String h4 r2)) =>
                      if Ascii.eqb p "%" then
                        match hex_val h3, hex_val h4 with
                        | Some x, Some y =>
                            let b2 := x * 16 + y in
                            if (128 <=? b2) && (b2 <? 192)
                            then option_map (String (chr ((b1 - 192) * 64 + (b2 - 128))))
                                   (decodeURIComponent r2)
                            else None
                        | _, _ => None
                        end
                      else None
                  | _ => None
                  end
                else None
            | _, _ => None
            end
        | _ => None
        end
      else option_map (String c) (decodeURIComponent r)
  end.

(** ** [JSON.stringify] *)

Definition escape_char (c : ascii) : string :=
  let n := code c in
  if n =? 34 then String backslash (String dquote "")
  else if n =? 92 then String backslash (String backslash "")
  else if n =? 8 then String backslash "b"
  else if n =? 12 then String backslash "f"
  else if n =? 10 then String backslash "n"
  else if n =? 13 then String backslash "r"
  else if n =? 9 then String backslash "t"
  else if n <? 32 then
    String backslash (String "u" (String "0" (String "0"
      (String (hex_lower (n / 16)) (String (hex_lower (n mod 16)) "")))))
  else String c "".

Fixpoint escape_string (s : string) : string :=
  match s with
  | EmptyString => ""
  | String c r => escape_char c ++ escape_string r
  end.

Definition quote (s : string) : string :=
  String dquote (escape_string s ++ String dquote "").

Fixpoint JSON_stringify (v : json) : string :=
  match v with
  | JNull => "null"
  | JBool true => "true"
  | JBool false => "false"
  | JNum n => string_of_Z n
  | JStr s => quote s
  | JArr vs => "[" ++ String.concat "," (map JSON_stringify vs) ++ "]"
  | JObj kvs =>
      "{" ++ String.concat ","
        (map (fun kv => quote (fst kv) ++ ":" ++ JSON_stringify (snd kv)) kvs) ++ "}"
  end.

(** ** [JSON.parse] *)

Definition is_ws (c : ascii) : bool :=
  existsb (Nat.eqb (code c)) [32; 9; 10; 13].

Fixpoint skip_ws (s : string) : string :=
  match s with
  | EmptyString => s
  | String c r => if is_ws c then skip_ws r else s
  end.

Fixpoint strip_prefix (p s : string) : option string :=
  match p, s with
  | EmptyString, _ => Some s
  | String a p', String b s' => if Ascii.eqb a b then strip_prefix p' s' else None
  | _, _ => None
  end.

Definition unescape (e : ascii) : option ascii :=
  let n := code e in
  if n =? 34 then Some dquote
  else if n =? 92 then Some backslash
  else if n =? 47 then Some "/"%char
  else if n =? 98 then Some (chr 8)
  else if n =? 102 then Some (chr 12)
  else if n =? 110 then Some (chr 10)
  else if n =? 114 then Some (chr 13)
  else if n =? 116 then Some (chr 9)
  else None.

Definition cons_char (c : ascii) (o : option (string * string)) : option (string * string) :=
  match o with
  | Some (acc, rest) => Some (String c acc, rest)
  | None => None
  end.

(** The characters of a string literal after its opening quote, up to and
    including the closing quote. *)
Fixpoint parse_str_chars (s : string) : option (string * string) :=
  match s with
  | EmptyString => None
  | String c r =>
      if Ascii.eqb c dquote then Some ("", r)
      else if Ascii.eqb c backslash then
        match r with
        | EmptyString => None
        | String e r' =>
            if code e =? 117 then
              match r' with
              | String h1 (String h2 (String h3 (String h4 r''))) =>
                  match hex_val h1, hex_val h2, hex_val h3, hex_val h4 with
                  | Some a, Some b, Some c', Some d =>
                      let n := a * 4096 + b * 256 + c' * 16 + d in
                      if n <? 256 then cons_char (chr n) (parse_str_chars r'') else None
                  | _, _, _, _ => None
                  end
              | _ => None
              end
            else
              match unescape e with
              | Some u => cons_char u (parse_str_chars r')
              | None => None
              end
        end
      else if code c <? 32 then None
      else cons_char c (parse_str_chars r)
  end.

(** A fraction or an exponent after the integer part is non-integer number
    syntax, outside the integer number model: [None]. *)
Definition finish_number (neg : bool) (d : Decimal.uint) (rest : string)
  : option (json * string) :=
  let ok := match rest with
            | String c _ => negb (existsb (Nat.eqb (code c)) [46; 101; 69])
            | EmptyString => true
            end in
  if ok then
    let n := Z.of_N (N.of_uint d) in Some (JNum (if neg then Z.opp n else n), rest)
  else None.

Definition parse_number (s : string) : option (json * string) :=
  let (neg, s1) := match s with
                   | String c r => if Ascii.eqb c "-" then (true, r) else (false, s)
                   | EmptyString => (false, s)
                   end in
  match s1 with
  | String c r =>
      if Ascii.eqb c "0" then finish_number neg Decimal.zero r
      else if is_digit c then
        let (d, rest) := read_digits s1 in finish_number neg d rest
      else None
  | EmptyString => None
  end.

Definition build_object (kvs : list (string * json)) : list (string * json) :=
  fold_left (fun o kv => define_prop (fst kv) (snd kv) o) kvs [].

Fixpoint parse_value (fuel : nat) (s : string) {struct fuel} : option (json * string) :=
  match fuel with
  | O => None
  | S f =>
      let s := skip_ws s in
      match strip_prefix "null" s with
      | Some r => Some (JNull, r)
      | None =>
      match strip_prefix "true" s with
      | Some r => Some (JBool true, r)
      | None =>
      match strip_prefix "false" s with
      | Some r => Some (JBool false, r)
      | None =>
      match s with
      | EmptyString => None
      | String c r =>
          if Ascii.eqb c dquote then
            match parse_str_chars r with
            | Some (str, r') => Some (JStr str, r')
            | None => None
            end
          else if Ascii.eqb c "[" then
            match skip_ws r with
            | String d r' =>
                if Ascii.eqb d "]" then Some (JArr [], r')
                else match parse_elems f r with
                     | Some (vs, r'') => Some (JArr vs, r'')
                     | None => None
                     end
            | EmptyString => None
            end
          else if Ascii.eqb c "{" then
            match skip_ws r with
            | String d r' =>
                if Ascii.eqb d "}" then Some (JObj [], r')
                else match parse_members f r with
                     | Some (kvs, r'') => Some (JObj (build_object kvs), r'')
                     | None => None
                     end
            | EmptyString => None
            end
          else parse_number s
      end end end end
  end
with parse_elems (fuel : nat) (s : string) {struct fuel} : option (list json * string) :=
  match fuel with
  | O => None
  | S f =>
      match parse_value f s with
      | None => None
      | Some (v, r) =>
          match skip_ws r with
          | String c r' =>
              if Ascii.eqb c "," then
                match parse_elems f r' with
                | Some (vs, r'') => Some (v :: vs, r'')
                | None => None
                end
              else if Ascii.eqb c "]" then Some ([v], r')
              else None
          | EmptyString => None
          end
      end
  end
with parse_members (fuel : nat) (s : string) {struct fuel}
  : option (list (string * json) * string) :=
  match fuel with
  | O => None
  | S f =>
      match skip_ws s with
      | String q r =>
          if Ascii.eqb q dquote then
            match parse_str_chars r with
            | Some (k, r1) =>
                match skip_ws r1 with
                | String col r2 =>
                    if Ascii.eqb col ":" then
                      match parse_value f r2 with
                      | Some (v, r3) =>
                          match skip_ws r3 with
                          | String c r4 =>
                              if Ascii.eqb c "," then
                                match parse_members f r4 with
                                | Some (kvs, r5) => Some ((k, v) :: kvs, r5)
                                | None => None
                                end
                              else if Ascii.eqb c "}" then Some ([(k, v)], r4)
                              else None
                          | EmptyString => None
                          end
                      | None => None
                      end
                    else None
                | EmptyString => None
                end
            | None => None
            end
          else None
      | EmptyString => None
      end
  end.

(** [None] is a thrown [SyntaxError], and also a JSON text that the [json]
    type cannot hold: a number with a fraction or an exponent, a [\u]
    escape above U+00FF.  On the texts [JSON.stringify] gives for values
    with [json_wf] it is exact ([JSON_parse_stringify] below), and these
    are the texts the results about [unserializeParams] rest on.  Every call of [parse_elems] or
    [parse_members] from [parse_value] consumes an opening bracket, so
    twice the input length bounds the nesting of calls. *)
Definition JSON_parse (s : string) : option json :=
  match parse_value (2 * String.length s + 2) s with
  | Some (v, r) => match skip_ws r with EmptyString => Some v | _ => None end
  | None => None
  end.

(** ** [serializeParams] and [unserializeParams] *)

(** [serializeParams(params)]: keys with a truthy value, each as
    [encodeURIComponent(k) + '=' + encodeURIComponent(JSON.stringify(v))],
    joined by ['&']. *)
Definition serializeParams (params : list (string * json)) : string :=
  String.concat "&"
    (map (fun kv => encodeURIComponent (fst kv) ++ "="
                    ++ encodeURIComponent (JSON_stringify (snd kv)))
       (filter (fun kv => truthy (snd kv)) params)).

(** [String.prototype.split] on a one-character separator. *)
Fixpoint split_on (sep : ascii) (s : string) : list string :=
  match s with
  | EmptyString => [""]
  | String c r =>
      if Ascii.eqb c sep then "" :: split_on sep r
      else match split_on sep r with
           | x :: xs => String c x :: xs
           | [] => [String c ""]
           end
  end.

(** [param_string.substring(1)] *)
Definition substring1 (s : string) : string :=
  match s with
  | EmptyString => ""
  | String _ r => r
  end.

(** [unserializeParams(param_string)]; [None] is the exception that aborts
    it.  A missing [val[1]] is [undefined], which [decodeURIComponent]
    reads as the string ["undefined"]. *)
Definition unserializeParams (param_string : string) : option (list (string * json)) :=
  let params_obj := map (split_on "=") (split_on "&" (substring1 param_string)) in
  fold_left
    (fun acc val =>
       match acc with
       | None => None
       | Some params =>
           match decodeURIComponent (nth 0 val "undefined") with
           | None => None
           | Some k =>
               match decodeURIComponent (nth 1 val "undefined") with
               | None => None
               | Some vs =>
                   match JSON_parse vs with
                   | None => None
                   | Some v => Some (set_prop k v params)
                   end
               end
           end
       end)
    params_obj (Some []).

(** ** Well-formed JSON values *)

Fixpoint keys_distinct (l : list string) : bool :=
  match l with
  | [] => true
  | k :: r => negb (existsb (String.eqb k) r) && keys_distinct r
  end.

Definition safe_integer (n : Z) : bool := (Z.abs n <? 2 ^ 53)%Z.

(** Safe-integer numbers, and objects without duplicate keys (as every
    JavaScript object is). *)
Fixpoint json_wf (v : json) : bool :=
  match v with
  | JNum n => safe_integer n
  | JArr vs => forallb json_wf vs
  | JObj kvs => keys_distinct (map fst kvs) && forallb (fun kv => json_wf (snd kv)) kvs
  | _ => true
  end.

(** A measure bounding the fuel [parse_value] needs on [JSON_stringify v]. *)
Fixpoint size (v : json) : nat :=
  match v with
  | JArr vs => 1 + fold_right (fun w acc => 1 + size w + acc) 0 vs
  | JObj kvs => 1 + fold_right (fun kv acc => 1 + size (snd kv) + acc) 0 kvs
  | _ => 1
  end.

(** What may follow a value inside a JSON text produced by
    [JSON.stringify]: the end, a comma or a closing bracket. *)
Definition delim (r : string) : bool :=
  match r with
  | EmptyString => true
  | String c _ => Ascii.eqb c "," || Ascii.eqb c "]" || Ascii.eqb c "}"
  end.

(** The [k=v] segment [serializeParams] emits for one kept property. *)
Definition param_segment (kv : string * json) : string :=
  encodeURIComponent (fst kv) ++ "=" ++ encodeURIComponent (JSON_stringify (snd kv)).

(** ** [ToString], strict equality and [indexOf] *)

(** [ToString] of a JSON value, as used for computed property keys and by
    [URLSearchParams.append]: arrays are joined with commas ([null]
    elements give the empty string), plain objects give
    ["[object Object]"]. *)
Fixpoint js_to_string (v : json) : string :=
  match v with
  | JNull => "null"
  | JBool true => "true"
  | JBool false => "false"
  | JNum n => string_of_Z n
  | JStr s => s
  | JArr vs =>
      String.concat ","
        ((fix go (l : list json) : list string :=
            match l with
            | [] => []
            | JNull :: r => "" :: go r
            | x :: r => js_to_string x :: go r
            end) vs)
  | JObj _ => "[object Object]"
  end.

(** Strict equality [===].  Arrays and objects compare by identity; every
    array or object handed to a method is a fresh object, equal to nothing
    already stored, so [strict_eq] is [false] on them. *)
Definition strict_eq (a b : json) : bool :=
  match a, b with
  | JNull, JNull => true
  | JBool x, JBool y => Bool.eqb x y
  | JNum x, JNum y => Z.eqb x y
  | JStr x, JStr y => String.eqb x y
  | _, _ => false
  end.

(** [Array.prototype.indexOf] (strict equality). *)
Fixpoint index_of_from (i : Z) (x : json) (l : list json) : Z :=
  match l with
  | [] => (-1)%Z
  | y :: r => if strict_eq y x then i else index_of_from (i + 1)%Z x r
  end.

Definition index_of (x : json) (l : list json) : Z := index_of_from 0%Z x l.

(** ** [pages] *)

(** A pagination entry: a page number or the string ['&hellip;']. *)
Inductive page_item : Type :=
| PageNum (n : Z)
| Ellipsis.

(** lodash [range(start, end)]: step [1] when [start < end], else [-1];
    [max(ceil((end - start) / step), 0)] elements. *)
Definition range (start end_ : Z) : list Z :=
  let step := if (start <? end_)%Z then 1%Z else (-1)%Z in
  map (fun i => (start + step * Z.of_nat i)%Z) (seq 0 (Z.to_nat (Z.abs (end_ - start)))).

(** The computed [pages], from [pagination_data.total_pages] and
    [params.pagenum] (integers here; [parseInt] may also give [NaN], which
    is not modelled). *)
Definition pages (total_pages current_page : Z) : list page_item :=
  if (total_pages =? 0)%Z then []
  else if (total_pages <=? 10)%Z then map PageNum (range 1 (total_pages + 1))
  else
    let '(pages_before, pages_after) :=
      if (current_page <=? 4)%Z then
        ((current_page - 1)%Z, (4 + (4 - (current_page - 1)))%Z)
      else if (total_pages <? current_page + 4)%Z then
        ((4 + (4 - (total_pages - current_page)))%Z, (total_pages - current_page)%Z)
      else (4%Z, 4%Z) in
    let start_page := (current_page - pages_before)%Z in
    let end_page := (current_page + pages_after)%Z in
    if (start_page =? 1)%Z then
      app (map PageNum (range start_page (end_page + 1))) [Ellipsis; PageNum total_pages]
    else if (end_page =? total_pages)%Z then
      app [PageNum 1; Ellipsis] (map PageNum (range start_page (end_page + 1)))
    else
      PageNum 1 ::
      app (if negb (start_page =? 2)%Z then [Ellipsis] else [])
        (app (map PageNum (range start_page (end_page + 1)))
           (app (if negb (end_page =? total_pages - 1)%Z then [Ellipsis] else [])
              [PageNum total_pages])).

(** ** lodash [merge] *)

(** [arr[i] = v] for [i <= arr.length]. *)
Fixpoint list_set {A : Type} (i : nat) (v : A) (l : list A) : list A :=
  match l, i with
  | [], _ => [v]
  | _ :: r, 0 => v :: r
  | x :: r, S j => x :: list_set j v r
  end.

(** The value [baseMergeDeep] / [baseMerge] store under a key whose current
    own value is [obj] when the source value is [src]: a source array is
    merged index-wise into the current array (or into [[]]), a source object
    key-wise into the current object (or into [{}]), and any other source
    value replaces the current one.  Only own properties are read
    ([safeGet] hides ["__proto__"], and inherited [Object.prototype]
    functions count as absent); new keys are defined as own properties,
    ["__proto__"] included.  (Merging an object onto an existing array,
    which adds named properties to the array, is outside the model and
    merges onto [{}].) *)
Fixpoint merge_value (obj : option json) (src : json) {struct src} : json :=
  match src with
  | JArr ss =>
      JArr ((fix go (i : nat) (base : list json) (l : list json) : list json :=
               match l with
               | [] => base
               | s :: r => go (S i) (list_set i (merge_value (nth_error base i) s) base) r
               end) 0 (match obj with Some (JArr os) => os | _ => [] end) ss)
  | JObj ss =>
      JObj ((fix go (base : list (string * json)) (l : list (string * json)) :=
               match l with
               | [] => base
               | (k, s) :: r =>
                   go (define_prop k
                         (merge_value (if String.eqb k "__proto__" then None
                                       else get_prop k base) s) base) r
               end) (match obj with Some (JObj os) => os | _ => [] end) ss)
  | v => v
  end.

(** [merge(object, source)] for plain objects. *)
Definition merge_object (o src : list (string * json)) : list (string * json) :=
  match merge_value (Some (JObj o)) (JObj src) with
  | JObj r => r
  | _ => o
  end.

(** ** The component's props and its reactive state *)

Record config : Type := mkConfig {
  ver : Z;
  post_type : string;
  per_page : Z;
  meta_fields : list (string * json);
  initial_page : Z;
  initial_search : string;
  initial_order : string;
  initial_orderby : string;
  initial_taxonomies : list (string * json);
  initial_meta_query : list (string * json);
  (** the page: [location.origin] and [window.location.pathname] *)
  location_origin : string;
  location_pathname : string;
  (** whether a global [_] with a lodash [merge] exists ([created] calls
      [_.merge], which the module does not import) *)
  global_merge : bool
}.

(** [initialParams()]; [clone] of the initial meta query is a copy of a
    value. *)
Definition initialParams (c : config) : list (string * json) :=
  [("per_page", JNum (per_page c)); ("search", JStr (initial_search c));
   ("order", JStr (initial_order c)); ("orderby", JStr (initial_orderby c));
   ("pagenum", JNum (initial_page c)); ("meta_query", JObj (initial_meta_query c));
   ("ver", JNum (ver c))].

(** [merge({}, this.initialParams(), this.initial_taxonomies)] *)
Definition reset_params (c : config) : list (string * json) :=
  merge_object (merge_object [] (initialParams c)) (initial_taxonomies c).

(** The state the [params] watcher and the history code act on.
    [plain_keys] are the properties of [params] that were created by plain
    assignment ([this.params.k = v] on a missing [k]): Vue does not make
    them reactive, so changing them, or pushing into an array they hold,
    notifies no watcher.  Assigning a whole new object to [params] makes all
    its properties reactive. *)
Record rstate : Type := mkState {
  params : list (string * json);
  plain_keys : list string;
  page_updated : bool;        (* this.__page_updated *)
  suppress_history : bool;    (* this.__suppress_history_state *)
  listening : bool;           (* the history listener is installed *)
  history : list (string * list (string * json))  (* pushed (url, state) *)
}.

(** [data()] *)
Definition initial_state : rstate := mkState [] [] false false false [].

Definition set_params (p : list (string * json)) (pl : list string) (s : rstate) : rstate :=
  mkState p pl (page_updated s) (suppress_history s) (listening s) (history s).

Definition set_page_updated (b : bool) (s : rstate) : rstate :=
  mkState (params s) (plain_keys s) b (suppress_history s) (listening s) (history s).

Definition set_suppress (b : bool) (s : rstate) : rstate :=
  mkState (params s) (plain_keys s) (page_updated s) b (listening s) (history s).

Definition is_plain (k : string) (s : rstate) : bool := existsb (String.eqb k) (plain_keys s).

(** [this.params.k = v]: the result and whether the deep [params] watcher
    is notified.  An existing reactive property notifies when the value
    changes ([!==]); a missing one is added as a plain property. *)
Definition vue_assign (k : string) (v : json) (s : rstate) : rstate * bool :=
  match get_prop k (params s) with
  | Some old =>
      (set_params (define_prop k v (params s)) (plain_keys s) s,
       negb (is_plain k s) && negb (strict_eq old v))
  | None =>
      if String.eqb k "__proto__" then (s, false)
      else (set_params (define_prop k v (params s)) (k :: plain_keys s) s, false)
  end.

(** ** The public methods *)

(** [if (terms.constructor !== Array) terms = [terms]]; [None] is the
    [TypeError] of reading [constructor] of [null]. *)
Definition terms_array (terms : json) : option (list json) :=
  match terms with
  | JNull => None
  | JArr ts => Some ts
  | t => Some [t]
  end.

(** The loop of [addTerms]: push each term not yet in the array. *)
Definition addTerms_list (terms xs : list json) : list json :=
  fold_left (fun acc t => if (index_of t acc =? -1)%Z then app acc [t] else acc) terms xs.

(** [addTerms(taxonomy, terms)] on [params]: the new [params] and whether a
    term was pushed.  The array is mutated in place.  [None] is a
    [TypeError]: [terms] is [null], or the loop runs and
    [params[taxonomy]] is not an array (a missing or inherited property;
    for a string value this happens at the first push). *)
Definition addTerms (taxonomy : string) (terms : json) (p : list (string * json))
  : option (list (string * json) * bool) :=
  match terms_array terms with
  | None => None
  | Some [] => Some (p, false)
  | Some ts =>
      match get_prop taxonomy p with
      | Some (JArr xs) =>
          let xs' := addTerms_list ts xs in
          Some (define_prop taxonomy (JArr xs') p, negb (length xs' =? length xs))
      | _ => None
      end
  end.

(** [splice(indexOf(t), 1)] *)
Fixpoint remove_first (x : json) (l : list json) : list json :=
  match l with
  | [] => []
  | y :: r => if strict_eq y x then r else y :: remove_first x r
  end.

Definition removeTerms (taxonomy : string) (terms : json) (p : list (string * json))
  : option (list (string * json) * bool) :=
  match terms_array terms with
  | None => None
  | Some [] => Some (p, false)
  | Some ts =>
      match get_prop taxonomy p with
      | Some (JArr xs) =>
          let xs' := fold_left (fun acc t => remove_first t acc) ts xs in
          Some (define_prop taxonomy (JArr xs') p, negb (length xs' =? length xs))
      | _ => None
      end
  end.

Inductive method : Type :=
| SelectPage (page : json)
| SetSearch (search : json)
| ResetTerms (taxonomy : string)
| AddTerms (taxonomy : string) (terms : json)
| RemoveTerms (taxonomy : string) (terms : json)
| SetTerms (taxonomy : string) (terms : json)
| SetOrder (order : json)
| SetOrderBy (orderby : json)
| SelectOrderBy (orderby : json) (default_order : json)
| ToggleOrder
| SetMetaFilter (field : string) (value : json)
| RemoveMetaFilter (field : string)
| ClearMetaFilters
| Reset.

Definition setOrder (order : json) (s : rstate) : option (rstate * bool) :=
  if strict_eq order (JStr "asc") || strict_eq order (JStr "desc")
  then Some (vue_assign "order" order s)
  else None.

Definition toggleOrder (s : rstate) : option (rstate * bool) :=
  match get_prop "order" (params s) with
  | Some o => if strict_eq o (JStr "asc") then setOrder (JStr "desc") s else setOrder (JStr "asc") s
  | None => setOrder (JStr "asc") s
  end.

Definition selectOrderBy (orderby default_order : json) (s : rstate) : option (rstate * bool) :=
  let default_order := if truthy default_order then default_order else JStr "asc" in
  let first :=
    match get_prop "orderby" (params s) with
    | Some o => if strict_eq o orderby then toggleOrder s else setOrder default_order s
    | None => setOrder default_order s
    end in
  match first with
  | None => None
  | Some (s1, t1) => let '(s2, t2) := vue_assign "orderby" orderby s1 in Some (s2, t1 || t2)
  end.

(** A public method call on [params]: the new state and whether the
    [params] watcher is notified; [None] is a thrown exception (every method
    here throws before mutating anything).  [Vue.set] and [Vue.delete] need
    [meta_query] to be an object ([undefined], [null] and primitives make
    [Vue.set] throw; an array [meta_query] is outside the model).
    [clearMetaFilters] reads the undeclared variable [meta_query] and
    always throws a [ReferenceError].  Reactivity below the top level is
    not tracked: [Vue.set] on a [field] that [meta_query] already has is a
    plain assignment, which notifies only when that property is reactive;
    the one nested property that is not is a [relation] created by the
    query's write, so [setMetaFilter('relation', v)] after that write is
    modelled as notifying where Vue would not. *)
Definition call (c : config) (m : method) (s : rstate) : option (rstate * bool) :=
  match m with
  | SelectPage page => Some (vue_assign "pagenum" page (set_page_updated true s))
  | SetSearch search => Some (vue_assign "search" search s)
  | ResetTerms taxonomy => Some (vue_assign taxonomy (JArr []) s)
  | AddTerms taxonomy terms =>
      match addTerms taxonomy terms (params s) with
      | Some (p', pushed) => Some (set_params p' (plain_keys s) s, pushed && negb (is_plain taxonomy s))
      | None => None
      end
  | RemoveTerms taxonomy terms =>
      match removeTerms taxonomy terms (params s) with
      | Some (p', removed) => Some (set_params p' (plain_keys s) s, removed && negb (is_plain taxonomy s))
      | None => None
      end
  | SetTerms taxonomy terms =>
      match terms_array terms with
      | Some ts => Some (vue_assign taxonomy (JArr ts) s)
      | None => None
      end
  | SetOrder order => setOrder order s
  | SetOrderBy orderby => Some (vue_assign "orderby" orderby s)
  | SelectOrderBy orderby default_order => selectOrderBy orderby default_order s
  | ToggleOrder => toggleOrder s
  | SetMetaFilter field value =>
      match get_prop "meta_query" (params s) with
      | Some (JObj mq) =>
          Some (set_params
                  (define_prop "meta_query"
                     (JObj (define_prop field (JObj [("field", JStr field); ("value", value)]) mq))
                     (params s)) (plain_keys s) s,
                negb (is_plain "meta_query" s))
      | _ => None
      end
  | RemoveMetaFilter field =>
      match get_prop "meta_query" (params s) with
      | Some (JObj mq) =>
          match get_prop field mq with
          | Some _ =>
              Some (set_params (define_prop "meta_query" (JObj (delete_prop field mq)) (params s))
                      (plain_keys s) s,
                    negb (is_plain "meta_query" s))
          | None => Some (s, false)
          end
      | None | Some JNull => None
      | Some _ => Some (s, false)
      end
  | ClearMetaFilters => None
  | Reset => Some (set_params (reset_params c) [] s, true)
  end.

(** ** [query_params] *)

(** A property value of the copy [extend({}, this.params)]: a primitive, a
    reference to the array or object held by the property [k] of
    [this.params] ([extend] copies references, it does not copy the nested
    values), or [undefined].  The only write [query_params] makes below the
    top level goes through such a reference, to [this.params[k]] itself;
    deeper sharing is never written and is not modelled. *)
Inductive val : Type :=
| VJson (v : json)
| VShared (k : string)
| VUndef.

(** [extend({}, this.params)] *)
Definition extend_copy (p : list (string * json)) : list (string * val) :=
  map (fun kv => match snd kv with
                 | JArr _ | JObj _ => (fst kv, VShared (fst kv))
                 | v => (fst kv, VJson v)
                 end) p.

Definition val_truthy (v : val) : bool :=
  match v with
  | VJson j => truthy j
  | VShared _ => true
  | VUndef => false
  end.

(** The property key [ToPropertyKey(orderby)]. *)
Definition prop_key (v : option json) : string :=
  match v with
  | None => "undefined"
  | Some j => js_to_string j
  end.

(** The properties every plain object inherits from [Object.prototype]. *)
Definition object_prototype_members : list string :=
  ["constructor"; "__defineGetter__"; "__defineSetter__"; "hasOwnProperty";
   "__lookupGetter__"; "__lookupSetter__"; "isPrototypeOf"; "propertyIsEnumerable";
   "toString"; "valueOf"; "__proto__"; "toLocaleString"].

(** [this.meta_fields[key]] on the plain object [meta_fields]. *)
Inductive mf_result : Type :=
| MFOwn (v : json)
| MFInherited
| MFUndef.

Definition mf_lookup (meta_fields : list (string * json)) (key : string) : mf_result :=
  match get_prop key meta_fields with
  | Some v => MFOwn v
  | None => if existsb (String.eqb key) object_prototype_members then MFInherited else MFUndef
  end.

Definition mf_is_number (r : mf_result) : bool :=
  match r with
  | MFOwn v => strict_eq v (JStr "number")
  | _ => false
  end.

Definition mf_truthy (r : mf_result) : bool :=
  match r with
  | MFOwn v => truthy v
  | MFInherited => true
  | MFUndef => false
  end.

(** [this.__valid_orderbys] *)
Definition valid_orderbys : list string :=
  ["author"; "date"; "id"; "include"; "modified"; "parent"; "relevance"; "slug"; "title"].

Definition orderby_error : string :=
  "Orderby must be one of: " ++ String.concat ", " valid_orderbys ++ ", or a postmeta field".

(** [this.__valid_orderbys.indexOf(orderby) === -1] *)
Definition not_valid_orderby (orderby : option json) : bool :=
  match orderby with
  | Some (JStr s) => negb (existsb (String.eqb s) valid_orderbys)
  | _ => true
  end.

(** The result of evaluating [query_params]: the returned object together
    with [this.params] after the evaluation, or the thrown value. *)
Inductive qresult : Type :=
| QOk (query : list (string * val)) (params_after : list (string * json))
| QThrow (e : string).

Definition opt_val (o : option json) : val :=
  match o with
  | Some j => VJson j
  | None => VUndef
  end.

(** [if (query_params.pagenum) { query_params.page = query_params.pagenum;
    delete query_params.pagenum; }] *)
Definition translate_pagenum (q : list (string * val)) : list (string * val) :=
  match get_prop "pagenum" q with
  | Some v => if val_truthy v then delete_prop "pagenum" (set_prop "page" v q) else q
  | None => q
  end.

(** The [orderby] block; [None] is the thrown message [orderby_error]. *)
Definition apply_orderby (meta_fields : list (string * json)) (orderby : option json)
    (q : list (string * val)) : option (list (string * val)) :=
  let field := mf_lookup meta_fields (prop_key orderby) in
  if mf_is_number field then
    Some (set_prop "meta_key" (opt_val orderby) (set_prop "orderby" (VJson (JStr "meta_value_num")) q))
  else if mf_truthy field then
    Some (set_prop "meta_key" (opt_val orderby) (set_prop "orderby" (VJson (JStr "meta_value")) q))
  else if not_valid_orderby orderby then None
  else Some q.

(** [if (Object.keys(query_params.meta_query).length > 0)
    query_params.meta_query.relation = 'AND';].  [Object.keys] of
    [undefined] or [null] throws a [TypeError]; a non-empty string has keys
    and assigning a property to it throws in strict (module) code; numbers
    and booleans have no keys.  A non-empty array receives a named
    [relation] property, which no JSON view of [params] shows.  Through a
    shared reference the write lands in [this.params]. *)
Definition apply_meta_query (p : list (string * json)) (q : list (string * val)) : qresult :=
  match get_prop "meta_query" q with
  | None | Some VUndef | Some (VJson JNull) => QThrow "TypeError"
  | Some (VJson (JStr s)) => if String.eqb s "" then QOk q p else QThrow "TypeError"
  | Some (VJson (JObj o)) =>
      if (0 <? length o)%nat
      then QOk (set_prop "meta_query" (VJson (JObj (set_prop "relation" (JStr "AND") o))) q) p
      else QOk q p
  | Some (VJson _) => QOk q p
  | Some (VShared k) =>
      match get_prop k p with
      | Some (JObj o) =>
          if (0 <? length o)%nat
          then QOk q (define_prop k (JObj (set_prop "relation" (JStr "AND") o)) p)
          else QOk q p
      | _ => QOk q p
      end
  end.

(** The computed [query_params]. *)
Definition query_params (meta_fields : list (string * json)) (p : list (string * json)) : qresult :=
  let query_params := extend_copy p in
  let orderby := get_prop "orderby" p in
  match apply_orderby meta_fields orderby (translate_pagenum query_params) with
  | None => QThrow orderby_error
  | Some q => apply_meta_query p q
  end.

(** [this.params] after the synchronous part of [__fetchData], which
    evaluates [query_params] inside [constructURL]. *)
Definition params_after_query (c : config) (p : list (string * json)) : list (string * json) :=
  match query_params (meta_fields c) p with
  | QOk _ p' => p'
  | QThrow _ => p
  end.

(** ** The [params] watcher, [created] and the history listener *)

(** Whether the query's write [relation = 'AND'] changed an existing
    (hence reactive) [meta_query.relation], which notifies the watcher
    again; a [relation] created by that write is a plain property. *)
Definition relation_changed (p1 p2 : list (string * json)) : bool :=
  match get_prop "meta_query" p1, get_prop "meta_query" p2 with
  | Some (JObj m1), Some (JObj m2) =>
      match get_prop "relation" m1, get_prop "relation" m2 with
      | Some a, Some b => strict_eq b (JStr "AND") && negb (strict_eq a (JStr "AND"))
      | _, _ => false
      end
  | _, _ => false
  end.

(** [meta_query.relation] is absent or already ['AND'], so the query's
    write cannot notify the watcher. *)
Definition relation_settled (p : list (string * json)) : bool :=
  match get_prop "meta_query" p with
  | Some (JObj mq) =>
      match get_prop "relation" mq with
      | Some v => strict_eq v (JStr "AND")
      | None => true
      end
  | _ => true
  end.

(** One run of [watch.params.handler]: the new state and whether it
    notified the watcher again.  Without the history object of
    [__initHistory] (when [created] threw before installing it),
    [__pushHistoryState] throws a TypeError at [this.__history.push]; Vue
    logs it, the handler stops there, and no entry is recorded. *)
Definition handler (c : config) (s : rstate) : rstate * bool :=
  let '(s1, t1) := if page_updated s then (s, false) else vue_assign "pagenum" (JNum 1) s in
  let p2 := params_after_query c (params s1) in
  let t2 := relation_changed (params s1) p2 in
  let h := if suppress_history s1 then history s1
           else if listening s1 then
             app (history s1)
               [(location_pathname c ++ "?" ++ serializeParams p2, p2)]
           else history s1 in
  (mkState p2 (plain_keys s1) false false (listening s1) h, t1 || t2).

(** Vue's scheduler reruns a watcher notified during its own run, up to
    its circular-update limit. *)
Definition reaction_limit : nat := 101.

(** The reactions that follow a notification: the final state and, for each
    reaction, [(armed, before, after)], where [armed] marks the first
    reaction after a history restoration or the mount. *)
Fixpoint reactions (fuel : nat) (c : config) (armed : bool) (s : rstate) (trig : bool)
  : rstate * list (bool * rstate * rstate) :=
  match fuel with
  | O => (s, [])
  | S f =>
      if trig then
        let '(s1, t1) := handler c s in
        let '(s', log) := reactions f c false s1 t1 in
        (s', (armed, s, s1) :: log)
      else (s, [])
  end.

(** [created()], with [location.search]; the flag says whether [params]
    was assigned.  When [_.merge] or [unserializeParams] throws, Vue logs
    the error of the hook and the component stays with [params = {}] and no
    history listener. *)
Definition created (c : config) (search : string) (s : rstate) : rstate * bool :=
  let s1 := set_suppress true (set_page_updated true s) in
  if String.eqb search "" then
    (mkState (reset_params c) [] true true true (history s1), true)
  else if global_merge c then
    match unserializeParams search with
    | Some u => (mkState (merge_object (initialParams c) u) [] true true true (history s1), true)
    | None => (s1, false)
    end
  else (s1, false).

(** The [POP] branch of the listener installed by [__initHistory]. *)
Definition pop_listener (c : config) (state : option (list (string * json))) (s : rstate) : rstate :=
  let s1 := set_suppress true s in
  match state with
  | Some st => set_params st [] (set_page_updated true s1)
  | None => set_params (reset_params c) [] s1
  end.

Inductive event : Type :=
| Call (m : method)
| Pop (state : option (list (string * json))).

(** One event and the reactions it causes, run to completion before the
    next event.  The boolean paired with the state is [true] from a
    restoration or the mount until the next reaction. *)
Definition step (c : config) (e : event) (st : rstate * bool)
  : (rstate * bool) * list (bool * rstate * rstate) :=
  let '(s, armed) := st in
  match e with
  | Call m =>
      match call c m s with
      | None => (st, [])
      | Some (s', t) =>
          let '(s'', log) := reactions reaction_limit c armed s' t in
          ((s'', armed && negb t), log)
      end
  | Pop state =>
      if listening s then
        let '(s'', log) := reactions reaction_limit c true (pop_listener c state s) true in
        ((s'', false), log)
      else (st, [])
  end.

Fixpoint run_events (c : config) (evs : list event) (st : rstate * bool)
  : (rstate * bool) * list (bool * rstate * rstate) :=
  match evs with
  | [] => (st, [])
  | e :: r =>
      let '(st1, log1) := step c e st in
      let '(st2, log2) := run_events c r st1 in
      (st2, app log1 log2)
  end.

(** Mount with [location.search], then the events. *)
Definition run (c : config) (search : string) (evs : list event)
  : (rstate * bool) * list (bool * rstate * rstate) :=
  let '(s1, t) := created c search initial_state in
  let '(s2, log1) := reactions reaction_limit c true s1 t in
  let '(st, log2) := run_events c evs (s2, negb t) in
  (st, app log1 log2).

(** The state after one method call and its reactions. *)
Definition after_call (c : config) (m : method) (s : rstate) : rstate :=
  fst (fst (step c (Call m) (s, false))).

(** ** [constructURL] and [__fetchData] *)

(** [String(value)] of a property of the query object. *)
Definition search_value (p : list (string * json)) (v : val) : string :=
  match v with
  | VJson j => js_to_string j
  | VShared k => match get_prop k p with Some j => js_to_string j | None => "undefined" end
  | VUndef => "undefined"
  end.

(** The request: the API path and its search parameters in order. *)
Record request : Type := mkRequest {
  request_path : string;
  request_search : list (string * string)
}.

(** [constructURL()]: the request or the message of the [Error] it throws,
    and [this.params] afterwards.  (The URL is taken to be valid.) *)
Definition constructURL (c : config) (p : list (string * json))
  : (request + string) * list (string * json) :=
  match query_params (meta_fields c) p with
  | QOk q p' =>
      (inl (mkRequest (location_origin c ++ "/wp-json/wp/v2/" ++ post_type c)
              (("context", "embed") :: ("_embed", "1")
                 :: map (fun kv => (fst kv, search_value p' (snd kv))) q)), p')
  | QThrow e => (inr e, p)
  end.

Record js_error : Type := mkError {
  error_name : string;
  error_message : string
}.

(** What [fetch] gives for the request: a rejection, or a response with
    its headers (lower-case names, one value each) and the outcome of
    [fetchResponse.json()] on its body: [Some v] when the body is JSON
    and parses to the JavaScript value [v] (of any type [B] of values),
    [None] when it rejects with a [SyntaxError]. *)
Inductive response (B : Type) : Type :=
| NetworkError (e : js_error)
| Response (headers : list (string * string)) (json_body : option B).

Arguments NetworkError {B} e.
Arguments Response {B} headers json_body.

(** JavaScript white space and line terminators among U+0000..U+00FF. *)
Definition js_space (c : ascii) : bool :=
  let n := code c in
  (n =? 9) || (n =? 10) || (n =? 11) || (n =? 12) || (n =? 13) || (n =? 32) || (n =? 160).

Fixpoint trim_start (s : string) : string :=
  match s with
  | String c r => if js_space c then trim_start r else s
  | EmptyString => s
  end.

Definition digit_value (c : ascii) : option Z :=
  let n := code c in
  if (48 <=? n) && (n <=? 57) then Some (Z.of_nat (n - 48))
  else if (97 <=? n) && (n <=? 122) then Some (Z.of_nat (n - 87))
  else if (65 <=? n) && (n <=? 90) then Some (Z.of_nat (n - 55))
  else None.

(** The longest prefix of digits of [radix]; [None] if there is none. *)
Fixpoint read_radix (radix : Z) (s : string) (acc : option Z) : option Z :=
  match s with
  | EmptyString => acc
  | String c r =>
      match digit_value c with
      | Some d =>
          if (d <? radix)%Z
          then read_radix radix r (Some (radix * match acc with Some a => a | None => 0 end + d)%Z)
          else acc
      | None => acc
      end
  end.

(** [parseInt(string)]; [None] is [NaN].  (Results beyond 2^53 lose
    precision in JavaScript; not modelled.) *)
Definition parseInt (s : string) : option Z :=
  let s := trim_start s in
  let '(sign, s) :=
    match s with
    | String "-" r => ((-1)%Z, r)
    | String "+" r => (1%Z, r)
    | _ => (1%Z, s)
    end in
  let '(radix, s) :=
    match s with
    | String "0" (String x r) =>
        if Ascii.eqb x "x" || Ascii.eqb x "X" then (16%Z, r) else (10%Z, s)
    | _ => (10%Z, s)
    end in
  option_map (Z.mul sign) (read_radix radix s None).

(** [parseInt(fetchResponse.headers.get(name))]; a missing header is
    [null], which [parseInt] reads as ["null"]. *)
Definition header_int (headers : list (string * string)) (name : string) : option Z :=
  parseInt (match get_prop name headers with Some v => v | None => "null" end).

(** The data [__fetchData] writes.  [total] and [total_pages] are
    [pagination_data]; [None] is [NaN]. *)
Record fstate (B : Type) : Type := mkFetch {
  wp_data : B;
  total : option Z;
  total_pages : option Z;
  error : option js_error;
  loading : bool;
  is_initial_load : bool
}.

Arguments mkFetch {B} wp_data total total_pages error loading is_initial_load.
Arguments wp_data {B} _.
Arguments total {B} _.
Arguments total_pages {B} _.
Arguments error {B} _.
Arguments loading {B} _.
Arguments is_initial_load {B} _.

Definition fetch_fail {B : Type} (e : js_error) (f : fstate B) : fstate B :=
  mkFetch (wp_data f) (total f) (total_pages f) (Some e) false (is_initial_load f).

(** [__fetchData()] run to completion with the given response: the data
    afterwards and [this.params] afterwards.  [new Error(error)] of a thrown
    string has that string as its message.  The hooks
    [triggerRootEvent] and [onInitialLoad] touch none of this data. *)
Definition __fetchData {B : Type} (c : config) (p : list (string * json)) (f : fstate B)
    (resp : response B) : fstate B * list (string * json) :=
  let f1 := mkFetch (wp_data f) (total f) (total_pages f) (error f) true (is_initial_load f) in
  let '(u, p') := constructURL c p in
  (match u with
   | inr e => fetch_fail (mkError "Error" e) f1
   | inl _ =>
       match resp with
       | NetworkError e => fetch_fail e f1
       | Response hs body =>
           match body with
           | None => fetch_fail (mkError "SyntaxError" "Unexpected token in JSON") f1
           | Some v =>
               mkFetch v (header_int hs "x-wp-total") (header_int hs "x-wp-totalpages")
                 (error f1) false false
           end
       end
   end, p').

(** The [terms] arguments made of numeric term IDs: one ID or an array of
    IDs. *)
Definition id_terms (terms : json) : option (list Z) :=
  match terms with
  | JNum z => Some [z]
  | JArr ts =>
      (fix go (l : list json) : option (list Z) :=
         match l with
         | [] => Some []
         | JNum z :: r => option_map (cons z) (go r)
         | _ :: _ => None
         end) ts
  | _ => None
  end.

(** [addTerms] on numeric IDs, as a list of integers. *)
Definition add_ids (ids zs : list Z) : list Z :=
  fold_left (fun acc z => if existsb (Z.eqb z) acc then acc else app acc [z]) ids zs.

Fixpoint no_char (c : ascii) (s : string) : bool :=
  match s with
  | EmptyString => true
  | String d r => negb (Ascii.eqb d c) && no_char c r
  end.

Definition starts_nondigit (r : string) : bool :=
  match r with
  | EmptyString => true
  | String c _ => match digit_cons c with None => true | Some _ => false end
  end.

Definition parses_back (v : json) : Prop :=
  json_wf v = true -> forall fuel r, size v <= fuel -> delim r = true ->
  parse_value fuel (JSON_stringify v ++ r) = Some (v, r).

(** The fields of the state other than [params] and [plain_keys]. *)
Definition same_fields (s s' : rstate) : Prop :=
  page_updated s' = page_updated s /\ suppress_history s' = suppress_history s
  /\ listening s' = listening s /\ history s' = history s.

(** ** The pagination shape, [isOrderedBy], [joinTerms] and the term
    grouping of [resources] *)

(** A list of page numbers with an ['&hellip;'] between two neighbours
    that are not consecutive. *)
Fixpoint with_ellipses (l : list Z) : list page_item :=
  match l with
  | [] => []
  | a :: r =>
      match r with
      | [] => [PageNum a]
      | b :: _ => PageNum a :: app (if (1 <? b - a)%Z then [Ellipsis] else []) (with_ellipses r)
      end
  end.

(** [isOrderedBy(orderby, order)] *)
Definition isOrderedBy (orderby order : json) (p : list (string * json)) : bool :=
  match get_prop "orderby" p with Some o => strict_eq o orderby | None => false end
  && match get_prop "order" p with Some o => strict_eq o order | None => false end.

(** [item.name] for an element of a term array: [None] is the [TypeError]
    of reading a property of [null]; a missing property, and any property of
    a primitive or an array, is [undefined] ([Some None]). *)
Definition term_name (t : json) : option (option json) :=
  match t with
  | JNull => None
  | JObj kvs => Some (get_prop "name" kvs)
  | _ => Some None
  end.

(** An element as [Array.prototype.join] writes it. *)
Definition join_element (o : option json) : string :=
  match o with
  | None | Some JNull => ""
  | Some j => js_to_string j
  end.

(** [.map((item) => item.name)], each name as [join] writes it. *)
Fixpoint term_names (ts : list json) : option (list string) :=
  match ts with
  | [] => Some []
  | t :: r =>
      match term_name t, term_names r with
      | Some n, Some ns => Some (join_element n :: ns)
      | _, _ => None
      end
  end.

(** [joinTerms(item, taxonomy, separator)], where [item.terms] is the
    object [terms] ([resources] always sets one).  A missing
    [item.terms[taxonomy]] is [undefined] or a member inherited from
    [Object.prototype] (a function, or the prototype itself for
    ["__proto__"]); like every own value that is not an array, it gives
    [''].  [None] is the [TypeError] of a [null] term. *)
Definition joinTerms (terms : list (string * json)) (taxonomy separator : string) : option string :=
  match get_prop taxonomy terms with
  | Some (JArr ts) => option_map (String.concat separator) (term_names ts)
  | _ => Some ""
  end.

(** The key [item.terms[taxonomy_name]] files a term under: [term.taxonomy]
    as a property key, with ['post_tag'] renamed ['tags'].  [None] is the
    [TypeError] of reading [taxonomy] of [null]; a primitive or an array
    has no [taxonomy] ([undefined]). *)
Definition taxonomy_key (term : json) : option string :=
  match term with
  | JNull => None
  | JObj kvs =>
      match get_prop "taxonomy" kvs with
      | Some v => Some (if strict_eq v (JStr "post_tag") then "tags" else js_to_string v)
      | None => Some "undefined"
      end
  | _ => Some "undefined"
  end.

(** [if (item.terms[k] === undefined) item.terms[k] = [];
    item.terms[k].push(term);].  A key inherited from [Object.prototype] is
    not [undefined], and its value has no [push]: a [TypeError]. *)
Definition push_term (g : list (string * json)) (term : json) : option (list (string * json)) :=
  match taxonomy_key term with
  | None => None
  | Some k =>
      match get_prop k g with
      | Some (JArr ts) => Some (define_prop k (JArr (app ts [term])) g)
      | Some _ => None
      | None =>
          if existsb (String.eqb k) object_prototype_members then None
          else Some (define_prop k (JArr [term]) g)
      end
  end.

(** The [item.terms] that [resources] builds from
    [item._embedded['wp:term']], an array of arrays of terms (as the REST
    API returns it); [None] is a [TypeError]. *)
Definition group_terms (wp_term : list (list json)) : option (list (string * json)) :=
  fold_left
    (fun acc taxonomy =>
       if (0 <? length taxonomy)%nat then
         fold_left (fun acc' term => match acc' with Some g => push_term g term | None => None end)
           taxonomy acc
       else acc)
    wp_term (Some []).

(** The terms of [ts] that [push_term] files under the key [k]. *)
Definition terms_under (k : string) (ts : list json) : list json :=
  filter (fun t => match taxonomy_key t with Some k' => String.eqb k' k | None => false end) ts.

(** A configuration with the component's default props. *)
Definition example_config : config :=
  mkConfig 1 "posts" 10 [] 1 "" "desc" "date" [] [] "https://example.org" "/" true.

(** * Proofs *)

(** ** Strings *)

Lemma sapp_assoc (a b c : string) : (a ++ b) ++ c = a ++ (b ++ c).
Proof. induction a as [|x a IH]; simpl; [reflexivity | now rewrite IH]. Qed.

Lemma sapp_nil_r (a : string) : a ++ "" = a.
Proof. induction a as [|x a IH]; simpl; [reflexivity | now rewrite IH]. Qed.

Lemma str1_app (c : ascii) (x : string) : String c "" ++ x = String c x.
Proof. reflexivity. Qed.

Lemma slength_app (a b : string) : String.length (a ++ b) = String.length a + String.length b.
Proof. induction a as [|x a IH]; simpl; [reflexivity | now rewrite IH]. Qed.

(** Every 8-bit character, for exhaustive checks. *)
Ltac all_chars c := destruct c as [[] [] [] [] [] [] [] []].

(** ** [decodeURIComponent] inverts [encodeURIComponent] *)

Lemma decode_encode_char (c : ascii) (r : string) :
  decodeURIComponent (encode_char c ++ r) = option_map (String c) (decodeURIComponent r).
Proof. all_chars c; reflexivity. Qed.

Lemma decode_encode_app (s r : string) :
  decodeURIComponent (encodeURIComponent s ++ r)
  = option_map (String.append s) (decodeURIComponent r).
Proof.
  induction s as [|c s IH]; simpl.
  - destruct (decodeURIComponent r); reflexivity.
  - rewrite sapp_assoc, decode_encode_char, IH.
    destruct (decodeURIComponent r); reflexivity.
Qed.

Lemma decode_encode (s : string) : decodeURIComponent (encodeURIComponent s) = Some s.
Proof.
  rewrite <- (sapp_nil_r (encodeURIComponent s)), decode_encode_app.
  simpl. now rewrite sapp_nil_r.
Qed.

(** ** Splitting *)

Lemma no_char_app (c : ascii) (a b : string) :
  no_char c (a ++ b) = no_char c a && no_char c b.
Proof. induction a as [|x a IH]; simpl; [reflexivity | now rewrite IH, andb_assoc]. Qed.

Lemma encode_char_no_amp (c : ascii) : no_char "&" (encode_char c) = true.
Proof. all_chars c; reflexivity. Qed.

Lemma encode_char_no_eq (c : ascii) : no_char "=" (encode_char c) = true.
Proof. all_chars c; reflexivity. Qed.

Lemma encode_no_char (d : ascii) (s : string) :
  (forall c, no_char d (encode_char c) = true) -> no_char d (encodeURIComponent s) = true.
Proof.
  intros H. induction s as [|c s IH]; simpl; [reflexivity|].
  now rewrite no_char_app, H, IH.
Qed.

Lemma split_on_no (sep : ascii) (s : string) :
  no_char sep s = true -> split_on sep s = [s].
Proof.
  induction s as [|c s IH]; simpl; [reflexivity|].
  intros H. apply andb_prop in H as [H1 H2].
  apply negb_true_iff in H1. rewrite H1, IH by exact H2. reflexivity.
Qed.

Lemma split_on_app (sep : ascii) (a b : string) :
  no_char sep a = true -> split_on sep (a ++ String sep b) = a :: split_on sep b.
Proof.
  induction a as [|c a IH]; simpl; intros H.
  - now rewrite Ascii.eqb_refl.
  - apply andb_prop in H as [H1 H2].
    apply negb_true_iff in H1. rewrite H1, IH by exact H2. reflexivity.
Qed.

Lemma split_on_concat (sep : ascii) (segs : list string) :
  segs <> [] -> Forall (fun s => no_char sep s = true) segs ->
  split_on sep (String.concat (String sep "") segs) = segs.
Proof.
  induction segs as [|s segs IH]; intros Hne Hall; [congruence|].
  inversion Hall as [|? ? Hs Hrest]; subst.
  destruct segs as [|s' segs].
  - simpl. now apply split_on_no.
  - change (String.concat (String sep "") (s :: s' :: segs))
      with (s ++ String sep "" ++ String.concat (String sep "") (s' :: segs)).
    simpl (String sep "" ++ _).
    rewrite split_on_app by exact Hs. f_equal. apply IH; [discriminate | exact Hrest].
Qed.

(** ** [JSON.parse] inverts [JSON.stringify] *)

Lemma parse_escape_char (c : ascii) (x : string) :
  parse_str_chars (escape_char c ++ x) = cons_char c (parse_str_chars x).
Proof. all_chars c; reflexivity. Qed.

Lemma parse_escape_string (s r : string) :
  parse_str_chars (escape_string s ++ String dquote r) = Some (s, r).
Proof.
  induction s as [|c s IH]; simpl; [reflexivity|].
  rewrite sapp_assoc, parse_escape_char, IH. reflexivity.
Qed.

Lemma quote_app (k x : string) :
  quote k ++ x = String dquote (escape_string k ++ String dquote x).
Proof. unfold quote. simpl. now rewrite sapp_assoc. Qed.

Lemma delim_nondigit (r : string) : delim r = true -> starts_nondigit r = true.
Proof.
  destruct r as [|c r]; simpl; [reflexivity|].
  intros H. repeat (apply orb_prop in H as [H|H]);
    apply Ascii.eqb_eq in H; subst; reflexivity.
Qed.

Lemma read_digits_uint (u : Decimal.uint) (r : string) :
  starts_nondigit r = true -> read_digits (string_of_uint u ++ r) = (u, r).
Proof.
  intros Hr. induction u; simpl; try (rewrite IHu; reflexivity).
  destruct r as [|c r]; simpl in *; [reflexivity|].
  destruct (digit_cons c); [discriminate | reflexivity].
Qed.

Lemma nb_nzhead (d : Decimal.uint) : Decimal.nb_digits (Decimal.nzhead d) <= Decimal.nb_digits d.
Proof. induction d; simpl; lia. Qed.

Lemma pos_uint_shape (p : positive) :
  Pos.to_uint p <> Decimal.Nil /\ forall d, Pos.to_uint p <> Decimal.D0 d.
Proof.
  split; [apply DecimalPos.Unsigned.to_uint_nonnil|].
  intros d Hd.
  assert (Hn : N.to_uint (N.of_uint (Pos.to_uint p)) = Decimal.unorm (Pos.to_uint p))
    by apply DecimalN.Unsigned.to_of.
  unfold N.of_uint in Hn. rewrite DecimalPos.Unsigned.of_to in Hn.
  simpl in Hn. rewrite Hd in Hn. unfold Decimal.unorm in Hn. simpl in Hn.
  destruct (Decimal.nzhead d) eqn:E.
  - inversion Hn; subst. apply (DecimalPos.Unsigned.to_uint_nonzero p). exact Hd.
  - injection Hn as Hn'. pose proof (nb_nzhead d) as Hb. rewrite E, <- Hn' in Hb. simpl in Hb. lia.
  - pose proof (nb_nzhead d) as Hb. rewrite E in Hb. rewrite <- Hn in Hb. simpl in Hb. lia.
  - pose proof (nb_nzhead d) as Hb. rewrite E in Hb. rewrite <- Hn in Hb. simpl in Hb. lia.
  - pose proof (nb_nzhead d) as Hb. rewrite E in Hb. rewrite <- Hn in Hb. simpl in Hb. lia.
  - pose proof (nb_nzhead d) as Hb. rewrite E in Hb. rewrite <- Hn in Hb. simpl in Hb. lia.
  - pose proof (nb_nzhead d) as Hb. rewrite E in Hb. rewrite <- Hn in Hb. simpl in Hb. lia.
  - pose proof (nb_nzhead d) as Hb. rewrite E in Hb. rewrite <- Hn in Hb. simpl in Hb. lia.
  - pose proof (nb_nzhead d) as Hb. rewrite E in Hb. rewrite <- Hn in Hb. simpl in Hb. lia.
  - pose proof (nb_nzhead d) as Hb. rewrite E in Hb. rewrite <- Hn in Hb. simpl in Hb. lia.
  - pose proof (nb_nzhead d) as Hb. rewrite E in Hb. rewrite <- Hn in Hb. simpl in Hb. lia.
Qed.

Lemma parse_number_uint (neg : bool) (u : Decimal.uint) (r : string) :
  u <> Decimal.Nil -> (forall d, u <> Decimal.D0 d) -> delim r = true ->
  parse_number ((if neg then "-" else "") ++ string_of_uint u ++ r)
  = Some (JNum (let n := Z.of_N (N.of_uint u) in if neg then Z.opp n else n), r).
Proof.
  intros Hnil H0 Hr.
  assert (Hok : finish_number neg u r
                = Some (JNum (let n := Z.of_N (N.of_uint u) in if neg then Z.opp n else n), r)).
  { unfold finish_number.
    destruct r as [|c r']; [reflexivity|].
    simpl in Hr. repeat (apply orb_prop in Hr as [Hr|Hr]);
      apply Ascii.eqb_eq in Hr; subst; reflexivity. }
  pose proof (delim_nondigit r Hr) as Hd.
  destruct u; try congruence; try (exfalso; eapply H0; reflexivity);
    destruct neg; unfold parse_number; simpl; rewrite read_digits_uint by exact Hd;
    exact Hok.
Qed.

Lemma parse_number_Z (z : Z) (r : string) :
  delim r = true -> parse_number (string_of_Z z ++ r) = Some (JNum z, r).
Proof.
  intros Hr. destruct z as [|p|p].
  - simpl. unfold parse_number. simpl.
    destruct r as [|c r']; [reflexivity|].
    simpl in Hr. repeat (apply orb_prop in Hr as [Hr|Hr]);
      apply Ascii.eqb_eq in Hr; subst; reflexivity.
  - destruct (pos_uint_shape p) as [Hn H0].
    pose proof (parse_number_uint false (Pos.to_uint p) r Hn H0 Hr) as H.
    simpl in H. unfold string_of_Z. rewrite H. unfold N.of_uint.
    rewrite DecimalPos.Unsigned.of_to. reflexivity.
  - destruct (pos_uint_shape p) as [Hn H0].
    pose proof (parse_number_uint true (Pos.to_uint p) r Hn H0 Hr) as H.
    simpl in H. unfold string_of_Z. simpl. rewrite H. unfold N.of_uint.
    rewrite DecimalPos.Unsigned.of_to. reflexivity.
Qed.

(** The first character of a serialized value: never blank, never a
    closing bracket. *)
Lemma stringify_head (v : json) (r : string) :
  exists c t, JSON_stringify v ++ r = String c t /\ is_ws c = false
              /\ Ascii.eqb c "]" = false /\ Ascii.eqb c "}" = false.
Proof.
  destruct v as [| [] | [|p|p] | s | vs | kvs].
  all: try (simpl; do 2 eexists; split; [reflexivity|]; repeat split; reflexivity).
  unfold JSON_stringify, string_of_Z.
  destruct (pos_uint_shape p) as [Hn _].
  destruct (Pos.to_uint p); [congruence|..].
  all: simpl; do 2 eexists; split; [reflexivity|]; repeat split; reflexivity.
Qed.

Lemma skip_ws_stringify (v : json) (r : string) :
  skip_ws (JSON_stringify v ++ r) = JSON_stringify v ++ r.
Proof.
  destruct (stringify_head v r) as (c & t & E & Hw & _). rewrite E. simpl. now rewrite Hw.
Qed.

Lemma parse_value_num (f : nat) (z : Z) (r : string) :
  parse_value (S f) (string_of_Z z ++ r) = parse_number (string_of_Z z ++ r).
Proof.
  destruct z as [|p|p]; [reflexivity| |reflexivity].
  unfold string_of_Z.
  destruct (pos_uint_shape p) as [Hn _].
  destruct (Pos.to_uint p); [congruence|..]; reflexivity.
Qed.

Lemma existsb_app_cons (k : string) (xs ys : list string) :
  keys_distinct (app xs (k :: ys)) = true -> existsb (String.eqb k) xs = false.
Proof.
  induction xs as [|x xs IH]; simpl; [reflexivity|].
  intros H. apply andb_prop in H as [H1 H2].
  rewrite IH by exact H2. rewrite orb_false_r.
  apply negb_true_iff in H1. rewrite existsb_app in H1. simpl in H1.
  apply orb_false_iff in H1 as [_ H1]. apply orb_false_iff in H1 as [H1 _].
  now rewrite String.eqb_sym.
Qed.

Lemma define_prop_fresh (k : string) (v : json) (o : list (string * json)) :
  existsb (String.eqb k) (map fst o) = false -> define_prop k v o = app o [(k, v)].
Proof.
  induction o as [|[k' v'] o IH]; simpl; [reflexivity|].
  intros H. apply orb_false_iff in H as [H1 H2]. rewrite H1, IH by exact H2. reflexivity.
Qed.

Lemma fold_define_fresh (l acc : list (string * json)) :
  keys_distinct (map fst (app acc l)) = true ->
  fold_left (fun o kv => define_prop (fst kv) (snd kv) o) l acc = app acc l.
Proof.
  revert acc. induction l as [|[k v] l IH]; intros acc H; simpl.
  - now rewrite app_nil_r.
  - rewrite define_prop_fresh.
    + rewrite IH; [now rewrite <- app_assoc|]. now rewrite <- app_assoc.
    + rewrite map_app in H. simpl in H. eapply existsb_app_cons; exact H.
Qed.

Lemma build_object_distinct (kvs : list (string * json)) :
  keys_distinct (map fst kvs) = true -> build_object kvs = kvs.
Proof. intros H. unfold build_object. now rewrite fold_define_fresh. Qed.

Lemma parse_elems_stringify (vs : list json) :
  Forall parses_back vs -> vs <> [] -> forallb json_wf vs = true ->
  forall fuel r, fold_right (fun w acc => 1 + size w + acc) 0 vs <= fuel -> delim r = true ->
  parse_elems fuel (String.concat "," (map JSON_stringify vs) ++ String "]" r) = Some (vs, r).
Proof.
  induction 1 as [|v vs Hv Hvs IH]; intros Hne Hwf fuel r Hf Hr; [congruence|].
  simpl in Hwf. apply andb_prop in Hwf as [Hw1 Hw2].
  destruct fuel as [|f]; simpl in Hf; [lia|].
  destruct vs as [|w ws].
  - simpl (String.concat _ _). cbn [parse_elems].
    rewrite (Hv Hw1 f (String "]" r)) by (reflexivity || lia).
    reflexivity.
  - change (String.concat "," (map JSON_stringify (v :: w :: ws)))
      with (JSON_stringify v ++ "," ++ String.concat "," (map JSON_stringify (w :: ws))).
    rewrite !sapp_assoc, str1_app.
    remember (String.concat "," (map JSON_stringify (w :: ws)) ++ String "]" r) as T eqn:ET.
    cbn [parse_elems].
    rewrite (Hv Hw1 f) by (reflexivity || lia).
    simpl. subst T.
    rewrite (IH ltac:(discriminate) Hw2 f r) by (simpl in *; lia || exact Hr).
    reflexivity.
Qed.

Lemma parse_members_stringify (kvs : list (string * json)) :
  Forall (fun kv => parses_back (snd kv)) kvs -> kvs <> [] ->
  forallb (fun kv => json_wf (snd kv)) kvs = true ->
  forall fuel r, fold_right (fun kv acc => 1 + size (snd kv) + acc) 0 kvs <= fuel ->
  delim r = true ->
  parse_members fuel
    (String.concat ","
       (map (fun kv => quote (fst kv) ++ ":" ++ JSON_stringify (snd kv)) kvs)
     ++ String "}" r) = Some (kvs, r).
Proof.
  induction 1 as [|[k v] kvs Hv Hvs IH]; intros Hne Hwf fuel r Hf Hr; [congruence|].
  simpl in Hwf. apply andb_prop in Hwf as [Hw1 Hw2]. simpl in Hv.
  destruct fuel as [|f]; simpl in Hf; [lia|].
  destruct kvs as [|kv' kvs].
  - cbn [String.concat map fst snd].
    rewrite !sapp_assoc, quote_app, str1_app.
    remember (JSON_stringify v ++ String "}" r) as T eqn:ET.
    cbn [parse_members]. simpl skip_ws. cbv beta iota.
    simpl (Ascii.eqb dquote dquote). cbv iota.
    rewrite parse_escape_string. simpl. subst T.
    rewrite (Hv Hw1 f (String "}" r)) by (reflexivity || lia).
    reflexivity.
  - remember (String.concat ","
       (map (fun kv => quote (fst kv) ++ ":" ++ JSON_stringify (snd kv)) (kv' :: kvs))
       ++ String "}" r) as T eqn:ET.
    assert (HT : parse_members f T = Some (kv' :: kvs, r)).
    { subst T. apply IH; [discriminate | exact Hw2 | simpl in *; lia | exact Hr]. }
    change (String.concat ","
       (map (fun kv => quote (fst kv) ++ ":" ++ JSON_stringify (snd kv)) ((k, v) :: kv' :: kvs)))
      with ((quote k ++ ":" ++ JSON_stringify v) ++ "," ++ String.concat ","
       (map (fun kv => quote (fst kv) ++ ":" ++ JSON_stringify (snd kv)) (kv' :: kvs))).
    rewrite !sapp_assoc, str1_app, <- ET, quote_app, str1_app.
    remember (JSON_stringify v ++ String "," T) as U eqn:EU.
    cbn [parse_members]. simpl skip_ws. cbv beta iota.
    simpl (Ascii.eqb dquote dquote). cbv iota.
    rewrite parse_escape_string. simpl. subst U.
    rewrite (Hv Hw1 f (String "," T)) by (reflexivity || lia).
    simpl. rewrite HT. reflexivity.
Qed.

Lemma stringify_arr (vs : list json) :
  JSON_stringify (JArr vs) = "[" ++ String.concat "," (map JSON_stringify vs) ++ "]".
Proof. reflexivity. Qed.

Lemma stringify_obj (kvs : list (string * json)) :
  JSON_stringify (JObj kvs)
  = "{" ++ String.concat ","
      (map (fun kv => quote (fst kv) ++ ":" ++ JSON_stringify (snd kv)) kvs) ++ "}".
Proof. reflexivity. Qed.

Lemma parse_stringify (v : json) : parses_back v.
Proof.
  induction v as [| b | n | s | vs IH | kvs IH] using json_ind';
    unfold parses_back; intros Hwf fuel r Hf Hr;
    (destruct fuel as [|f]; [simpl in Hf; lia|]).
  - reflexivity.
  - destruct b; reflexivity.
  - simpl JSON_stringify. rewrite parse_value_num. now apply parse_number_Z.
  - simpl JSON_stringify. rewrite quote_app.
    cbn [parse_value]. simpl skip_ws. simpl strip_prefix. cbv iota.
    simpl (Ascii.eqb dquote dquote). cbv iota.
    now rewrite parse_escape_string.
  - destruct vs as [|w ws]; [reflexivity|].
    simpl in Hwf. simpl in Hf.
    rewrite stringify_arr, !sapp_assoc, !str1_app.
    assert (HE : parse_elems f (String.concat "," (map JSON_stringify (w :: ws)) ++ String "]" r)
                 = Some (w :: ws, r)).
    { apply parse_elems_stringify; [exact IH | discriminate | exact Hwf | simpl; lia | exact Hr]. }
    remember (String.concat "," (map JSON_stringify (w :: ws)) ++ String "]" r) as T eqn:ET.
    assert (HT : exists c t, T = String c t /\ is_ws c = false /\ Ascii.eqb c "]" = false).
    { subst T. destruct ws as [|w' ws'].
      - destruct (stringify_head w (String "]" r)) as (c & t & E & H1 & H2 & _).
        exists c, t. split; [exact E | split; assumption].
      - change (String.concat "," (map JSON_stringify (w :: w' :: ws')))
          with (JSON_stringify w ++ "," ++ String.concat "," (map JSON_stringify (w' :: ws'))).
        rewrite sapp_assoc.
        destruct (stringify_head w (("," ++ String.concat "," (map JSON_stringify (w' :: ws')))
                                     ++ String "]" r)) as (c & t & E & H1 & H2 & _).
        exists c, t. split; [exact E | split; assumption]. }
    destruct HT as (c & t & HT & Hw & Hb).
    cbn [parse_value]. simpl skip_ws. simpl strip_prefix. cbv iota.
    simpl (Ascii.eqb "[" _). cbv iota.
    rewrite HT. simpl skip_ws. rewrite Hw. rewrite Hb. rewrite <- HT, HE. reflexivity.
  - destruct kvs as [|[k0 w] kvs]; [reflexivity|].
    simpl in Hwf. apply andb_prop in Hwf as [Hd Hwf]. simpl in Hf.
    rewrite stringify_obj, !sapp_assoc, !str1_app.
    assert (HE : parse_members f
      (String.concat ","
         (map (fun kv => quote (fst kv) ++ ":" ++ JSON_stringify (snd kv)) ((k0, w) :: kvs))
       ++ String "}" r) = Some ((k0, w) :: kvs, r)).
    { apply parse_members_stringify; [exact IH | discriminate | exact Hwf | simpl; lia | exact Hr]. }
    remember (String.concat ","
         (map (fun kv => quote (fst kv) ++ ":" ++ JSON_stringify (snd kv)) ((k0, w) :: kvs))
       ++ String "}" r) as T eqn:ET.
    assert (HT : exists t, T = String dquote t).
    { subst T. destruct kvs; simpl; eexists; reflexivity. }
    destruct HT as [t HT].
    cbn [parse_value]. simpl skip_ws. simpl strip_prefix. cbv iota.
    simpl (Ascii.eqb "{" _). cbv iota.
    rewrite HT. simpl skip_ws. simpl (Ascii.eqb dquote "}"). cbv iota.
    rewrite <- HT, HE. rewrite build_object_distinct by exact Hd. reflexivity.
Qed.

Lemma string_of_Z_nonempty (z : Z) : 1 <= String.length (string_of_Z z).
Proof.
  destruct z as [|p|p]; simpl; try lia.
  destruct (pos_uint_shape p) as [Hn _].
  destruct (Pos.to_uint p); [congruence|..]; simpl; lia.
Qed.

Lemma size_arr (vs : list json) :
  size (JArr vs) = 1 + fold_right (fun w acc => 1 + size w + acc) 0 vs.
Proof. reflexivity. Qed.

Lemma size_obj (kvs : list (string * json)) :
  size (JObj kvs) = 1 + fold_right (fun kv acc => 1 + size (snd kv) + acc) 0 kvs.
Proof. reflexivity. Qed.

Lemma size_le_length (v : json) : size v <= String.length (JSON_stringify v).
Proof.
  induction v as [| b | n | s | vs IH | kvs IH] using json_ind'.
  - simpl; lia.
  - destruct b; simpl; lia.
  - apply string_of_Z_nonempty.
  - simpl. lia.
  - rewrite stringify_arr, !slength_app, size_arr. simpl (String.length "[").
    simpl (String.length "]").
    enough (fold_right (fun w acc => 1 + size w + acc) 0 vs
            <= 1 + String.length (String.concat "," (map JSON_stringify vs))) by lia.
    induction IH as [|w ws Hw Hws IHws]; simpl; [lia|].
    destruct ws as [|w' ws']; simpl in *; [lia|].
    rewrite !slength_app in *. simpl in *. lia.
  - rewrite stringify_obj, !slength_app, size_obj. simpl (String.length "{").
    simpl (String.length "}").
    enough (fold_right (fun kv acc => 1 + size (snd kv) + acc) 0 kvs
            <= 1 + String.length (String.concat ","
                 (map (fun kv => quote (fst kv) ++ ":" ++ JSON_stringify (snd kv)) kvs))) by lia.
    induction IH as [|[k w] ws Hw Hws IHws]; simpl; [lia|].
    simpl in Hw.
    destruct ws as [|w' ws']; simpl in *;
      rewrite !slength_app in *; unfold quote in *; simpl in *; lia.
Qed.

Lemma JSON_parse_stringify (v : json) :
  json_wf v = true -> JSON_parse (JSON_stringify v) = Some v.
Proof.
  intros Hwf. unfold JSON_parse.
  pose proof (parse_stringify v Hwf (2 * String.length (JSON_stringify v) + 2) "") as H.
  rewrite sapp_nil_r in H. rewrite H; [reflexivity| |reflexivity].
  pose proof (size_le_length v). lia.
Qed.

(** ** The parameter string *)

Lemma segment_no_amp (kv : string * json) : no_char "&" (param_segment kv) = true.
Proof.
  unfold param_segment. rewrite !no_char_app, !encode_no_char by apply encode_char_no_amp.
  reflexivity.
Qed.

Lemma segment_split (kv : string * json) :
  split_on "=" (param_segment kv)
  = [encodeURIComponent (fst kv); encodeURIComponent (JSON_stringify (snd kv))].
Proof.
  unfold param_segment. rewrite str1_app, split_on_app.
  - rewrite split_on_no; [reflexivity|]. apply encode_no_char, encode_char_no_eq.
  - apply encode_no_char, encode_char_no_eq.
Qed.

Lemma unserialize_fold (l acc : list (string * json)) :
  forallb (fun kv => negb (String.eqb (fst kv) "__proto__") && json_wf (snd kv)) l = true ->
  fold_left
    (fun acc val =>
       match acc with
       | None => None
       | Some params =>
           match decodeURIComponent (nth 0 val "undefined") with
           | None => None
           | Some k =>
               match decodeURIComponent (nth 1 val "undefined") with
               | None => None
               | Some vs =>
                   match JSON_parse vs with
                   | None => None
                   | Some v => Some (set_prop k v params)
                   end
               end
           end
       end)
    (map (split_on "=") (map param_segment l)) (Some acc)
  = Some (fold_left (fun o kv => define_prop (fst kv) (snd kv) o) l acc).
Proof.
  revert acc. induction l as [|[k v] l IH]; intros acc H; [reflexivity|].
  simpl in H. apply andb_prop in H as [H1 H2]. apply andb_prop in H1 as [Hk Hv].
  simpl. rewrite segment_split. simpl nth.
  rewrite !decode_encode, JSON_parse_stringify by exact Hv.
  unfold set_prop. apply negb_true_iff in Hk. simpl in Hk. rewrite Hk.
  now apply IH.
Qed.

Lemma filter_all_truthy (p : list (string * json)) :
  forallb (fun kv => truthy (snd kv)) p = true ->
  filter (fun kv => truthy (snd kv)) p = p.
Proof.
  induction p as [|kv p IH]; simpl; [reflexivity|].
  intros H. apply andb_prop in H as [H1 H2]. rewrite H1, IH by exact H2. reflexivity.
Qed.

(** ** C1: the parameter string round trip *)

Lemma unserialize_serialize_params (p : list (string * json)) :
  p <> [] ->
  keys_distinct (map fst p) = true ->
  forallb (fun kv => truthy (snd kv) && negb (String.eqb (fst kv) "__proto__")
                     && json_wf (snd kv)) p = true ->
  unserializeParams ("?" ++ serializeParams p) = Some p.
Proof.
  intros Hne Hd Hall.
  assert (Ht : forallb (fun kv => truthy (snd kv)) p = true).
  { rewrite forallb_forall in *. intros kv Hkv. specialize (Hall kv Hkv).
    now apply andb_prop in Hall as [Hall _]; apply andb_prop in Hall as [Hall _]. }
  assert (Hr : forallb (fun kv => negb (String.eqb (fst kv) "__proto__") && json_wf (snd kv)) p = true).
  { rewrite forallb_forall in *. intros kv Hkv. specialize (Hall kv Hkv).
    apply andb_prop in Hall as [Hall Hw]; apply andb_prop in Hall as [_ Hk].
    now rewrite Hk, Hw. }
  unfold unserializeParams, serializeParams.
  rewrite filter_all_truthy by exact Ht.
  change (fun kv : string * json => encodeURIComponent (fst kv) ++ "="
            ++ encodeURIComponent (JSON_stringify (snd kv))) with param_segment.
  simpl substring1.
  rewrite (split_on_concat "&" (map param_segment p)).
  - rewrite unserialize_fold by exact Hr. f_equal.
    now rewrite fold_define_fresh.
  - destruct p; [congruence | discriminate].
  - apply Forall_forall. intros s Hs. apply in_map_iff in Hs as (kv & <- & _).
    apply segment_no_amp.
Qed.

Lemma encode_unreserved (a : ascii) (k : string) :
  uri_unreserved a = true -> encodeURIComponent (String a k) = String a (encodeURIComponent k).
Proof. intros H. simpl. unfold encode_char. now rewrite H. Qed.

Lemma concat_first_char (sep : string) (a : ascii) (x : string) (l : list string) :
  String.concat sep (String a x :: l) = String a (String.concat sep (x :: l)).
Proof. destruct l; reflexivity. Qed.

Lemma unserialize_first_char (a : ascii) (x : string) :
  unserializeParams (String a x) = unserializeParams ("?" ++ x).
Proof. reflexivity. Qed.

(** C1 ([serializeParams] and [unserializeParams] do not round-trip).
    [serializeParams] gives the documented form
    [param1=value1&param2=value2], with no leading ['?'], while
    [unserializeParams] starts with [substring(1)], which removes the
    first character whatever it is.  For every non-empty mapping whose
    values are truthy well-formed JSON values and whose first key starts
    with a character [encodeURIComponent] keeps, the round trip returns the
    mapping with that character cut from the first key: never [p] itself.
    Only [unserializeParams('?' + serializeParams(p))] gives [p] back
    ([unserialize_serialize_params]). *)
Theorem unserialize_serialize_drops_first (a : ascii) (k : string) (v : json)
    (r : list (string * json)) :
  uri_unreserved a = true ->
  keys_distinct (k :: map fst r) = true ->
  forallb (fun kv => truthy (snd kv) && negb (String.eqb (fst kv) "__proto__")
                     && json_wf (snd kv)) ((k, v) :: r) = true ->
  unserializeParams (serializeParams ((String a k, v) :: r)) = Some ((k, v) :: r)
  /\ unserializeParams (serializeParams ((String a k, v) :: r)) <> Some ((String a k, v) :: r).
Proof.
  intros Ha Hd Hall.
  assert (Hv : truthy v = true).
  { simpl in Hall. now destruct (truthy v). }
  assert (E : serializeParams ((String a k, v) :: r) = String a (serializeParams ((k, v) :: r))).
  { unfold serializeParams. cbn [filter snd fst]. rewrite Hv. cbn [map fst snd].
    rewrite encode_unreserved by exact Ha. apply concat_first_char. }
  rewrite E, unserialize_first_char.
  rewrite unserialize_serialize_params by (try discriminate; assumption).
  split; [reflexivity|].
  intros H. injection H as H. apply (f_equal String.length) in H. simpl in H. lia.
Qed.

Lemma unserialize_serialize_drops_first_witness :
  unserializeParams (serializeParams [("a", JNum 1)]) = Some [("", JNum 1)]
  /\ unserializeParams (serializeParams [("a", JNum 1)]) <> Some [("a", JNum 1)].
Proof.
  apply (unserialize_serialize_drops_first "a" "" (JNum 1) []); vm_compute; reflexivity.
Defined.

(** ** C2: the pagination window *)

(** C2 (amended).  [pages] returns [[]] when [total_pages = 0] and
    [[1,2,3,4,5]] when [total_pages = 5], whatever the current page; with
    20 pages it shows nine consecutive page numbers: [[1..9, …, 20]] on
    page 1 and [[1, …, 12..20]] on page 20. *)
Theorem pages_examples :
  (forall current_page, pages 0 current_page = []) /\
  (forall current_page,
     pages 5 current_page = [PageNum 1; PageNum 2; PageNum 3; PageNum 4; PageNum 5]) /\
  pages 20 1 = [PageNum 1; PageNum 2; PageNum 3; PageNum 4; PageNum 5; PageNum 6;
                PageNum 7; PageNum 8; PageNum 9; Ellipsis; PageNum 20] /\
  pages 20 20 = [PageNum 1; Ellipsis; PageNum 12; PageNum 13; PageNum 14; PageNum 15;
                 PageNum 16; PageNum 17; PageNum 18; PageNum 19; PageNum 20].
Proof. repeat split; reflexivity. Qed.

(** C2 (counterexample).  On page 1 of 20 the window is not
    [[1,2,3,4,5,…,20]] (nor is page 20 of 20 [[1,…,16..20]]). *)
Lemma pages_counterexample :
  pages 20 1 <> [PageNum 1; PageNum 2; PageNum 3; PageNum 4; PageNum 5; Ellipsis; PageNum 20]
  /\ pages 20 20 <> [PageNum 1; Ellipsis; PageNum 16; PageNum 17; PageNum 18; PageNum 19;
                     PageNum 20].
Proof. split; vm_compute; discriminate. Qed.

(** ** C7: which keys [serializeParams] omits *)

Lemma truthy_false_iff (v : json) :
  truthy v = false <-> v = JNull \/ v = JBool false \/ v = JNum 0 \/ v = JStr "".
Proof.
  destruct v as [| [] | n | s | vs | kvs]; simpl; split; intros H;
    try solve [intuition discriminate | reflexivity].
  - apply negb_false_iff, Z.eqb_eq in H. subst. auto.
  - destruct H as [H|[H|[H|H]]]; inversion H; reflexivity.
  - apply negb_false_iff, String.eqb_eq in H. subst. auto.
  - destruct H as [H|[H|[H|H]]]; inversion H; reflexivity.
Qed.

(** C7 (amended).  The falsy values are exactly [null], [false], [0] and
    [""]; empty arrays and objects are truthy.  [serializeParams] keeps
    exactly the properties with a truthy value, in order, and emits each as
    [encodeURIComponent(k) + '=' + encodeURIComponent(JSON.stringify(v))]:
    splitting the result on ['&'] gives back these segments one by one, and
    the result is the empty string when no property is kept. *)
Theorem serializeParams_omits_falsy (p : list (string * json)) :
  (forall v, truthy v = false <-> v = JNull \/ v = JBool false \/ v = JNum 0 \/ v = JStr "")
  /\ (filter (fun kv => truthy (snd kv)) p <> [] ->
      split_on "&" (serializeParams p) = map param_segment (filter (fun kv => truthy (snd kv)) p))
  /\ (filter (fun kv => truthy (snd kv)) p = [] -> serializeParams p = "").
Proof.
  split; [exact truthy_false_iff|]. split.
  - intros Hne. unfold serializeParams.
    change (fun kv : string * json => encodeURIComponent (fst kv) ++ "="
              ++ encodeURIComponent (JSON_stringify (snd kv))) with param_segment.
    apply split_on_concat.
    + destruct (filter _ p); [congruence | discriminate].
    + apply Forall_forall. intros s Hs. apply in_map_iff in Hs as (kv & <- & _).
      apply segment_no_amp.
  - intros He. unfold serializeParams. rewrite He. reflexivity.
Qed.

Lemma serializeParams_omits_falsy_witness :
  split_on "&" (serializeParams [("a", JArr []); ("b", JNum 0); ("c", JStr "x&y")])
  = map param_segment [("a", JArr []); ("c", JStr "x&y")].
Proof.
  destruct (serializeParams_omits_falsy [("a", JArr []); ("b", JNum 0); ("c", JStr "x&y")])
    as [_ [H _]].
  apply H. simpl. discriminate.
Defined.

(** C7 (counterexample).  An empty array is kept, not omitted. *)
Lemma serializeParams_counterexample :
  serializeParams [("a", JArr [])] = "a=%5B%5D" /\ serializeParams [("a", JArr [])] <> "".
Proof. split; vm_compute; [reflexivity | discriminate]. Qed.

(** ** Property lists *)

Lemma get_define_same {A : Type} (k : string) (v : A) (o : list (string * A)) :
  get_prop k (define_prop k v o) = Some v.
Proof.
  induction o as [|[k' v'] o IH]; simpl.
  - now rewrite String.eqb_refl.
  - destruct (String.eqb k k') eqn:E; simpl; rewrite E; [reflexivity | exact IH].
Qed.

Lemma get_define_other {A : Type} (k k' : string) (v : A) (o : list (string * A)) :
  k' <> k -> get_prop k' (define_prop k v o) = get_prop k' o.
Proof.
  intros Hne. induction o as [|[k0 v0] o IH]; simpl.
  - apply String.eqb_neq in Hne. now rewrite Hne.
  - destruct (String.eqb k k0) eqn:E; simpl.
    + apply String.eqb_eq in E. subst k0. apply String.eqb_neq in Hne. now rewrite Hne.
    + destruct (String.eqb k' k0); [reflexivity | exact IH].
Qed.

Lemma define_define {A : Type} (k : string) (v : A) (o : list (string * A)) :
  define_prop k v (define_prop k v o) = define_prop k v o.
Proof.
  induction o as [|[k' v'] o IH]; simpl.
  - now rewrite String.eqb_refl.
  - destruct (String.eqb k k') eqn:E; simpl; rewrite E; [reflexivity | now rewrite IH].
Qed.

Lemma define_get {A : Type} (k : string) (v : A) (o : list (string * A)) :
  get_prop k o = Some v -> define_prop k v o = o.
Proof.
  induction o as [|[k' v'] o IH]; simpl; [discriminate|].
  destruct (String.eqb k k') eqn:E.
  - intros H. inversion H. subst. apply String.eqb_eq in E. now subst.
  - intros H. now rewrite IH.
Qed.

(** ** C10: [addTerms] on term IDs *)

Lemma index_of_from_neg (i : Z) (x : json) (l : list json) :
  (0 <= i)%Z -> (index_of_from i x l =? -1)%Z = negb (existsb (fun y => strict_eq y x) l).
Proof.
  revert i. induction l as [|y l IH]; intros i Hi; simpl; [reflexivity|].
  destruct (strict_eq y x); simpl.
  - apply Z.eqb_neq. lia.
  - apply IH. lia.
Qed.

Lemma existsb_num (z : Z) (acc : list Z) :
  existsb (fun y => strict_eq y (JNum z)) (map JNum acc) = existsb (Z.eqb z) acc.
Proof.
  induction acc as [|a acc IH]; simpl; [reflexivity|]. now rewrite IH, Z.eqb_sym.
Qed.

Lemma addTerms_list_ids (ids zs : list Z) :
  addTerms_list (map JNum ids) (map JNum zs) = map JNum (add_ids ids zs).
Proof.
  unfold addTerms_list, add_ids. revert zs.
  induction ids as [|i ids IH]; intros zs; simpl; [reflexivity|].
  unfold index_of. rewrite index_of_from_neg by lia. rewrite existsb_num.
  destruct (existsb (Z.eqb i) zs); simpl.
  - apply IH.
  - rewrite <- IH. f_equal. now rewrite map_app.
Qed.

Lemma existsb_Z (z : Z) (l : list Z) : existsb (Z.eqb z) l = true <-> In z l.
Proof.
  rewrite existsb_exists. split.
  - intros (y & Hy & E). apply Z.eqb_eq in E. now subst.
  - intros H. exists z. split; [exact H | apply Z.eqb_refl].
Qed.

Lemma add_ids_shape (ids zs : list Z) :
  exists extra, add_ids ids zs = app zs extra
    /\ Forall (fun z => In z ids /\ ~ In z zs) extra
    /\ (NoDup zs -> NoDup (app zs extra))
    /\ Forall (fun z => In z (app zs extra)) ids.
Proof.
  unfold add_ids. revert zs. induction ids as [|i ids IH]; intros zs; simpl.
  - exists []. rewrite app_nil_r. repeat split; auto.
  - destruct (existsb (Z.eqb i) zs) eqn:E.
    + destruct (IH zs) as (extra & H1 & H2 & H3 & H4). exists extra.
      repeat split; auto.
      * eapply Forall_impl; [|exact H2]. simpl. intuition.
      * constructor; [|exact H4]. apply in_or_app. left. now apply existsb_Z.
    + destruct (IH (app zs [i])) as (extra & H1 & H2 & H3 & H4).
      assert (Hi : ~ In i zs) by (intros Hin; apply existsb_Z in Hin; congruence).
      exists (i :: extra). rewrite <- app_assoc in H1, H3, H4. simpl in H1, H3, H4.
      split; [exact H1|]. split; [|split].
      * constructor; [split; [now left | exact Hi]|].
        eapply Forall_impl; [|exact H2]. simpl. intros z [Hz1 Hz2].
        split; [now right|]. intros Hz. apply Hz2, in_or_app. now left.
      * intros Hnd. apply H3. apply NoDup_app; [exact Hnd | constructor; [intros []|constructor] |].
        intros z Hz1 [Hz2|[]]. subst. contradiction.
      * constructor; [|exact H4]. apply in_or_app. right. now left.
Qed.

Lemma add_ids_present (ids zs : list Z) :
  Forall (fun z => In z zs) ids -> add_ids ids zs = zs.
Proof.
  unfold add_ids. revert zs. induction ids as [|i ids IH]; intros zs H; simpl; [reflexivity|].
  inversion H as [|? ? Hi Hrest]; subst.
  apply existsb_Z in Hi. rewrite Hi. now apply IH.
Qed.

Lemma id_terms_array (terms : json) (ids : list Z) :
  id_terms terms = Some ids -> terms_array terms = Some (map JNum ids).
Proof.
  destruct terms as [| | z | | ts |]; simpl; try discriminate.
  - intros H. now inversion H.
  - revert ids. induction ts as [|t ts IH]; intros ids H.
    + now inversion H.
    + destruct t; try discriminate.
      destruct ((fix go (l : list json) : option (list Z) :=
                   match l with
                   | [] => Some []
                   | JNum z :: r => option_map (cons z) (go r)
                   | _ :: _ => None
                   end) ts) as [r|] eqn:E; [|discriminate].
      simpl in H. inversion H. subst.
      specialize (IH r eq_refl). inversion IH. reflexivity.
Qed.

(** C10.  On a taxonomy whose term list is a list of distinct IDs, [addTerms]
    with one ID or an array of IDs appends only IDs of the argument that
    were absent, the list stays free of duplicates and holds every given
    ID, and a second identical call changes nothing and pushes nothing. *)
Theorem addTerms_nodup_idempotent (taxonomy : string) (terms : json)
    (ids zs : list Z) (p : list (string * json)) :
  id_terms terms = Some ids ->
  get_prop taxonomy p = Some (JArr (map JNum zs)) ->
  NoDup zs ->
  exists extra p' pushed,
    addTerms taxonomy terms p = Some (p', pushed)
    /\ get_prop taxonomy p' = Some (JArr (map JNum (app zs extra)))
    /\ NoDup (app zs extra)
    /\ Forall (fun z => In z ids /\ ~ In z zs) extra
    /\ addTerms taxonomy terms p' = Some (p', false).
Proof.
  intros Hid Hget Hnd.
  destruct (add_ids_shape ids zs) as (extra & Hsh & Hex & Hnd' & Hall).
  unfold addTerms. rewrite (id_terms_array _ _ Hid).
  destruct ids as [|i ids'].
  - destruct extra as [|e extra]; [|inversion Hex as [|? ? [[] _] _]].
    exists [], p, false. rewrite app_nil_r. repeat split; auto.
  - simpl map. cbv iota. rewrite Hget.
    change (JNum i :: map JNum ids') with (map JNum (i :: ids')).
    rewrite addTerms_list_ids.
    set (p' := define_prop taxonomy (JArr (map JNum (add_ids (i :: ids') zs))) p).
    exists extra, p', (negb (length (map JNum (add_ids (i :: ids') zs)) =? length (map JNum zs))).
    assert (Hg : get_prop taxonomy p' = Some (JArr (map JNum (app zs extra)))).
    { unfold p'. rewrite get_define_same. now rewrite Hsh. }
    repeat split; auto.
    rewrite Hg. rewrite <- Hsh. rewrite addTerms_list_ids.
    rewrite (add_ids_present (i :: ids') (add_ids (i :: ids') zs)).
    + rewrite Nat.eqb_refl. simpl negb. unfold p'. now rewrite define_define.
    + now rewrite Hsh.
Qed.

Lemma addTerms_nodup_idempotent_witness :
  exists extra p' pushed,
    addTerms "category" (JArr [JNum 3; JNum 7; JNum 3]) [("category", JArr [JNum 7; JNum 1])]
      = Some (p', pushed)
    /\ get_prop "category" p' = Some (JArr (map JNum (app [7; 1]%Z extra)))
    /\ NoDup (app [7; 1]%Z extra)
    /\ Forall (fun z => In z [3; 7; 3]%Z /\ ~ In z [7; 1]%Z) extra
    /\ addTerms "category" (JArr [JNum 3; JNum 7; JNum 3]) p' = Some (p', false).
Proof.
  apply (addTerms_nodup_idempotent "category" (JArr [JNum 3; JNum 7; JNum 3]) [3; 7; 3]%Z [7; 1]%Z).
  - reflexivity.
  - reflexivity.
  - constructor; [simpl; lia | constructor; [simpl; tauto | constructor]].
Defined.

(** ** The query object *)

Lemma get_set_other {A : Type} (k k' : string) (v : A) (o : list (string * A)) :
  k' <> k -> get_prop k' (set_prop k v o) = get_prop k' o.
Proof.
  intros H. unfold set_prop. destruct (String.eqb k "__proto__"); [reflexivity|].
  now apply get_define_other.
Qed.

Lemma get_set_same {A : Type} (k : string) (v : A) (o : list (string * A)) :
  k <> "__proto__" -> get_prop k (set_prop k v o) = Some v.
Proof.
  intros H. unfold set_prop. apply String.eqb_neq in H. rewrite H. apply get_define_same.
Qed.

Lemma get_delete_other {A : Type} (k k' : string) (o : list (string * A)) :
  k' <> k -> get_prop k' (delete_prop k o) = get_prop k' o.
Proof.
  intros Hne. induction o as [|[k0 v0] o IH]; simpl; [reflexivity|].
  destruct (String.eqb k k0) eqn:E.
  - apply String.eqb_eq in E. subst k0. apply String.eqb_neq in Hne. now rewrite Hne.
  - simpl. destruct (String.eqb k' k0); [reflexivity | exact IH].
Qed.

Lemma get_extend_copy (k : string) (p : list (string * json)) :
  get_prop k (extend_copy p) =
  option_map (fun v => match v with JArr _ | JObj _ => VShared k | v => VJson v end)
    (get_prop k p).
Proof.
  induction p as [|[k' v] p IH]; simpl; [reflexivity|].
  destruct (String.eqb k k') eqn:E.
  - apply String.eqb_eq in E. subst. destruct v; simpl; rewrite String.eqb_refl; reflexivity.
  - destruct v; simpl; rewrite E; exact IH.
Qed.

Lemma get_translate_other (k : string) (q : list (string * val)) :
  k <> "page" -> k <> "pagenum" -> get_prop k (translate_pagenum q) = get_prop k q.
Proof.
  intros H1 H2. unfold translate_pagenum.
  destruct (get_prop "pagenum" q) as [v|]; [|reflexivity].
  destruct (val_truthy v); [|reflexivity].
  rewrite get_delete_other by exact H2. now apply get_set_other.
Qed.

Lemma apply_orderby_other (mf : list (string * json)) (ob : option json)
    (q q' : list (string * val)) (k : string) :
  k <> "orderby" -> k <> "meta_key" -> apply_orderby mf ob q = Some q' ->
  get_prop k q' = get_prop k q.
Proof.
  intros H1 H2. unfold apply_orderby.
  destruct (mf_is_number _); [|destruct (mf_truthy _); [|destruct (not_valid_orderby ob)]];
    intros E; inversion E; subst; try reflexivity;
    rewrite !get_set_other by assumption; reflexivity.
Qed.

(** The [meta_query] property of the query object refers to
    [this.params.meta_query] whenever that is an array or an object. *)
Lemma query_meta_query (mf p : list (string * json)) (q : list (string * val)) :
  apply_orderby mf (get_prop "orderby" p) (translate_pagenum (extend_copy p)) = Some q ->
  get_prop "meta_query" q =
  option_map (fun v => match v with JArr _ | JObj _ => VShared "meta_query" | v => VJson v end)
    (get_prop "meta_query" p).
Proof.
  intros E. rewrite (apply_orderby_other _ _ _ _ "meta_query" ltac:(discriminate) ltac:(discriminate) E).
  rewrite get_translate_other by discriminate. apply get_extend_copy.
Qed.

Lemma query_params_unfold (mf p : list (string * json)) :
  query_params mf p =
  match apply_orderby mf (get_prop "orderby" p) (translate_pagenum (extend_copy p)) with
  | None => QThrow orderby_error
  | Some q => apply_meta_query p q
  end.
Proof. reflexivity. Qed.

Lemma apply_meta_query_obj (mf p mq : list (string * json)) (q : list (string * val)) :
  apply_orderby mf (get_prop "orderby" p) (translate_pagenum (extend_copy p)) = Some q ->
  get_prop "meta_query" p = Some (JObj mq) ->
  apply_meta_query p q =
  QOk q (if (0 <? length mq)%nat
         then define_prop "meta_query" (JObj (set_prop "relation" (JStr "AND") mq)) p
         else p).
Proof.
  intros E Hm. unfold apply_meta_query. rewrite (query_meta_query _ _ _ E), Hm. simpl.
  rewrite Hm. now destruct (0 <? length mq)%nat.
Qed.

(** Evaluating [query_params] changes at most [this.params.meta_query],
    by writing its [relation]. *)
Lemma query_params_effect (mf p : list (string * json)) :
  (forall q p', query_params mf p = QOk q p' ->
     p' = p \/ exists mq, get_prop "meta_query" p = Some (JObj mq)
                /\ p' = define_prop "meta_query" (JObj (set_prop "relation" (JStr "AND") mq)) p).
Proof.
  intros q p'. rewrite query_params_unfold.
  destruct (apply_orderby _ _ _) as [q0|] eqn:E; [|discriminate].
  unfold apply_meta_query. rewrite (query_meta_query _ _ _ E).
  destruct (get_prop "meta_query" p) as [v|] eqn:Hm; simpl; [|discriminate].
  destruct v as [| | | s | vs | o]; simpl; try (intros H; inversion H; subst; now left).
  - destruct (String.eqb s ""); intros H; inversion H; subst; now left.
  - rewrite Hm. intros H; inversion H; subst; now left.
  - rewrite Hm. destruct (0 <? length o)%nat; intros H; inversion H; subst;
      [right; exists o; split; reflexivity | now left].
Qed.

Lemma params_after_query_other (c : config) (p : list (string * json)) (k : string) :
  k <> "meta_query" -> get_prop k (params_after_query c p) = get_prop k p.
Proof.
  intros Hk. unfold params_after_query.
  destruct (query_params (meta_fields c) p) as [q p'|e] eqn:E; [|reflexivity].
  destruct (query_params_effect _ _ q p' E) as [->|[o [_ ->]]]; [reflexivity|].
  now apply get_define_other.
Qed.

Lemma valid_orderby_ok (ob : string) :
  In ob valid_orderbys -> not_valid_orderby (Some (JStr ob)) = false.
Proof.
  intros H. unfold not_valid_orderby. apply negb_false_iff, existsb_exists. exists ob.
  split; [exact H | apply String.eqb_refl].
Qed.

(** ** C6: [query_params] writes into [this.params] *)

(** C6 (code bug).  [extend({}, this.params)] is a shallow copy, so
    [query_params.meta_query] is [this.params.meta_query] itself: for a
    valid [orderby] and a non-empty [meta_query] whose [relation] is not
    yet ['AND'], evaluating [query_params] leaves [this.params] with the
    [relation] written into its [meta_query]. *)
Theorem query_params_writes_params (mf p mq : list (string * json)) (ob : string) :
  get_prop "orderby" p = Some (JStr ob) -> In ob valid_orderbys ->
  get_prop "meta_query" p = Some (JObj mq) -> mq <> [] ->
  get_prop "relation" mq <> Some (JStr "AND") ->
  exists q p', query_params mf p = QOk q p'
    /\ get_prop "meta_query" p' = Some (JObj (set_prop "relation" (JStr "AND") mq))
    /\ get_prop "meta_query" p' <> get_prop "meta_query" p.
Proof.
  intros Hob Hv Hm Hne Hrel.
  rewrite query_params_unfold.
  destruct (apply_orderby mf (get_prop "orderby" p) (translate_pagenum (extend_copy p)))
    as [q|] eqn:E.
  - rewrite (apply_meta_query_obj mf p mq q E Hm).
    assert (Hl : (0 <? length mq)%nat = true)
      by (destruct mq; [congruence | reflexivity]).
    rewrite Hl. exists q, (define_prop "meta_query" (JObj (set_prop "relation" (JStr "AND") mq)) p).
    split; [reflexivity|]. rewrite get_define_same. split; [reflexivity|].
    rewrite Hm. intros H. inversion H as [H1]. apply Hrel.
    rewrite <- H1. apply get_set_same. discriminate.
  - exfalso. revert E. unfold apply_orderby. rewrite Hob, (valid_orderby_ok ob Hv).
    destruct (mf_is_number _); [discriminate|]. destruct (mf_truthy _); discriminate.
Qed.

Lemma query_params_writes_params_witness :
  exists q p', query_params [] [("orderby", JStr "date"); ("pagenum", JNum 2);
                 ("meta_query", JObj [("price", JObj [("field", JStr "price"); ("value", JNum 5)])])]
      = QOk q p'
    /\ get_prop "meta_query" p'
       = Some (JObj (set_prop "relation" (JStr "AND")
                       [("price", JObj [("field", JStr "price"); ("value", JNum 5)])]))
    /\ get_prop "meta_query" p'
       <> get_prop "meta_query" [("orderby", JStr "date"); ("pagenum", JNum 2);
            ("meta_query", JObj [("price", JObj [("field", JStr "price"); ("value", JNum 5)])])].
Proof.
  apply (query_params_writes_params [] _ _ "date").
  - reflexivity.
  - simpl. tauto.
  - reflexivity.
  - discriminate.
  - simpl. discriminate.
Defined.

(** ** C8: how [orderby] is translated *)






(** ** C5: what [__fetchData] records *)

(** C5 (amended).  [__fetchData] always leaves the loading state.  When the
    request is built, the response arrives and its body is JSON, the raw
    results become the parsed body and [pagination_data] the [parseInt] of
    the [x-wp-total] and [x-wp-totalpages] headers ([NaN] when missing),
    while [error] keeps its previous value: a prior error is not cleared.
    When building the request throws (the [orderby] validation or a
    malformed [meta_query]), [fetch] rejects, or the body is not JSON, an
    error is recorded and the results and pagination data are left as they
    were. *)
Theorem fetchData_outcome {B : Type} (c : config) (p : list (string * json)) (f : fstate B)
    (resp : response B) :
  let f' := fst (__fetchData c p f resp) in
  loading f' = false
  /\ (forall q p' hs body v,
        query_params (meta_fields c) p = QOk q p' -> resp = Response hs body ->
        body = Some v ->
        wp_data f' = v /\ total f' = header_int hs "x-wp-total"
        /\ total_pages f' = header_int hs "x-wp-totalpages" /\ error f' = error f)
  /\ ((exists e, query_params (meta_fields c) p = QThrow e)
      \/ (exists e, resp = NetworkError e)
      \/ (exists hs, resp = Response hs None) ->
      error f' <> None /\ wp_data f' = wp_data f /\ total f' = total f
      /\ total_pages f' = total_pages f).
Proof.
  unfold __fetchData, constructURL. cbv zeta.
  destruct (query_params (meta_fields c) p) as [q p'|e] eqn:Eq; simpl.
  - destruct resp as [e|hs body]; simpl.
    + split; [reflexivity|]. split.
      * intros ? ? ? ? ? _ H. discriminate.
      * intros _. repeat split; discriminate.
    + destruct body as [v|]; simpl.
      * split; [reflexivity|]. split.
        -- intros q1 p1 hs1 body1 v1 _ H Hj. inversion H; subst. inversion H2. subst. repeat split.
        -- intros [[e He]|[[e He]|(hs1 & H)]]; discriminate.
      * split; [reflexivity|]. split.
        -- intros q1 p1 hs1 body1 v1 _ H Hj. inversion H; subst. congruence.
        -- intros _. repeat split; discriminate.
  - split; [reflexivity|]. split.
    + intros ? ? ? ? ? H. discriminate.
    + intros _. repeat split; discriminate.
Qed.

Lemma fetchData_outcome_witness :
  let c := mkConfig 1 "posts" 10 [] 1 "" "desc" "date" [] [] "https://example.org" "/" true in
  let f' := fst (__fetchData c (initialParams c) (mkFetch (JObj []) (Some 0%Z) (Some 0%Z) None true true)
                   (Response [("x-wp-total", "12"); ("x-wp-totalpages", "2")] (Some (JArr [])))) in
  wp_data f' = JArr [] /\ total f' = header_int [("x-wp-total", "12"); ("x-wp-totalpages", "2")] "x-wp-total"
  /\ total_pages f' = header_int [("x-wp-total", "12"); ("x-wp-totalpages", "2")] "x-wp-totalpages"
  /\ error f' = None.
Proof.
  intros c f'.
  destruct (fetchData_outcome c (initialParams c) (mkFetch (JObj []) (Some 0%Z) (Some 0%Z) None true true)
              (Response [("x-wp-total", "12"); ("x-wp-totalpages", "2")] (Some (JArr [])))) as [_ [H _]].
  eapply H; vm_compute; reflexivity.
Defined.

(** C5 (counterexample).  A successful fetch after a failed one leaves the
    earlier error in place. *)
Lemma fetchData_counterexample :
  let c := mkConfig 1 "posts" 10 [] 1 "" "desc" "date" [] [] "https://example.org" "/" true in
  let prior := mkError "TypeError" "Failed to fetch" in
  error (fst (__fetchData c (initialParams c)
                (mkFetch (JObj []) (Some 0%Z) (Some 0%Z) (Some prior) false false)
                (Response [("x-wp-total", "1"); ("x-wp-totalpages", "1")] (Some (JArr [])))))
  = Some prior.
Proof. vm_compute. reflexivity. Qed.

(** ** The watcher and the methods *)

Lemma some_pair_fst {A B : Type} (x : A * B) (a : A) (b : B) :
  Some x = Some (a, b) -> a = fst x.
Proof. intros H. injection H as ->. reflexivity. Qed.

Lemma same_fields_refl (s : rstate) : same_fields s s.
Proof. repeat split. Qed.

Lemma same_fields_trans (s1 s2 s3 : rstate) :
  same_fields s1 s2 -> same_fields s2 s3 -> same_fields s1 s3.
Proof. unfold same_fields. intuition congruence. Qed.

Lemma same_fields_set_params (p : list (string * json)) (pl : list string) (s : rstate) :
  same_fields s (set_params p pl s).
Proof. repeat split. Qed.

Lemma vue_assign_fields (k : string) (v : json) (s : rstate) :
  same_fields s (fst (vue_assign k v s)).
Proof.
  unfold vue_assign. destruct (get_prop k (params s)); [apply same_fields_set_params|].
  destruct (String.eqb k "__proto__"); [apply same_fields_refl | apply same_fields_set_params].
Qed.

Lemma vue_assign_get (k : string) (v : json) (s : rstate) :
  k <> "__proto__" -> get_prop k (params (fst (vue_assign k v s))) = Some v.
Proof.
  intros Hk. unfold vue_assign. destruct (get_prop k (params s)); simpl.
  - apply get_define_same.
  - apply String.eqb_neq in Hk. rewrite Hk. apply get_define_same.
Qed.

Lemma vue_assign_other (k k' : string) (v : json) (s : rstate) :
  k' <> k -> get_prop k' (params (fst (vue_assign k v s))) = get_prop k' (params s).
Proof.
  intros Hk. unfold vue_assign. destruct (get_prop k (params s)); simpl.
  - now apply get_define_other.
  - destruct (String.eqb k "__proto__"); [reflexivity|]. simpl. now apply get_define_other.
Qed.

Lemma setOrder_fields (o : json) (s s' : rstate) (t : bool) :
  setOrder o s = Some (s', t) -> same_fields s s'.
Proof.
  unfold setOrder. destruct (_ || _); [|discriminate].
  intros H. apply some_pair_fst in H. subst. apply vue_assign_fields.
Qed.

Lemma toggleOrder_fields (s s' : rstate) (t : bool) :
  toggleOrder s = Some (s', t) -> same_fields s s'.
Proof.
  unfold toggleOrder. destruct (get_prop "order" (params s)) as [o|];
    [destruct (strict_eq o (JStr "asc"))|]; apply setOrder_fields.
Qed.

(** A method call leaves the history state alone, and only [selectPage]
    touches [__page_updated]. *)
Lemma call_fields (c : config) (m : method) (s s' : rstate) (t : bool) :
  call c m s = Some (s', t) ->
  suppress_history s' = suppress_history s /\ listening s' = listening s
  /\ history s' = history s
  /\ ((forall page, m <> SelectPage page) -> page_updated s' = page_updated s).
Proof.
  intros H.
  assert (Hs : (forall page, m <> SelectPage page) -> same_fields s s').
  { intros Hm. destruct m; simpl in H.
    - exfalso. now apply (Hm page).
    - apply some_pair_fst in H. subst. apply vue_assign_fields.
    - apply some_pair_fst in H. subst. apply vue_assign_fields.
    - destruct (addTerms _ _ _) as [[? ?]|]; inversion H. apply same_fields_set_params.
    - destruct (removeTerms _ _ _) as [[? ?]|]; inversion H. apply same_fields_set_params.
    - destruct (terms_array _); [|discriminate].
      apply some_pair_fst in H. subst. apply vue_assign_fields.
    - eapply setOrder_fields; exact H.
    - apply some_pair_fst in H. subst. apply vue_assign_fields.
    - unfold selectOrderBy in H.
      match type of H with
      | match ?x with _ => _ end = _ => destruct x as [[s1 t1]|] eqn:E1; [|discriminate]
      end.
      destruct (vue_assign "orderby" orderby s1) as [s2 t2] eqn:E2. inversion H. subst.
      apply same_fields_trans with s1.
      + destruct (get_prop "orderby" (params s)) as [o|];
          [destruct (strict_eq o orderby); [eapply toggleOrder_fields | eapply setOrder_fields]
          | eapply setOrder_fields]; exact E1.
      + replace s' with (fst (vue_assign "orderby" orderby s1)) by now rewrite E2.
        apply vue_assign_fields.
    - eapply toggleOrder_fields; exact H.
    - destruct (get_prop "meta_query" (params s)) as [[]|]; inversion H.
      apply same_fields_set_params.
    - destruct (get_prop "meta_query" (params s)) as [[]|]; try discriminate;
        try (inversion H; apply same_fields_refl).
      destruct (get_prop field kvs); inversion H;
        [apply same_fields_set_params | apply same_fields_refl].
    - discriminate.
    - inversion H. apply same_fields_set_params. }
  destruct m; try (destruct (Hs ltac:(discriminate)) as (H1 & H2 & H3 & H4); auto; fail).
  simpl in H. apply some_pair_fst in H. subst.
  destruct (vue_assign_fields "pagenum" page (set_page_updated true s)) as (H1 & H2 & H3 & H4).
  repeat split; try assumption. intros Hm. exfalso. now apply (Hm page).
Qed.

(** The history entry a reaction pushes for the state it leaves. *)
Lemma handler_facts (c : config) (s : rstate) :
  suppress_history (fst (handler c s)) = false
  /\ page_updated (fst (handler c s)) = false
  /\ listening (fst (handler c s)) = listening s
  /\ history (fst (handler c s))
     = if suppress_history s then history s
       else if listening s then
         app (history s) [(location_pathname c ++ "?" ++ serializeParams (params (fst (handler c s))),
                           params (fst (handler c s)))]
       else history s.
Proof.
  unfold handler.
  destruct (if page_updated s then (s, false) else vue_assign "pagenum" (JNum 1) s)
    as [s1 t1] eqn:E.
  assert (Hf : same_fields s s1).
  { destruct (page_updated s); [inversion E; apply same_fields_refl|].
    replace s1 with (fst (vue_assign "pagenum" (JNum 1) s)) by now rewrite E.
    apply vue_assign_fields. }
  destruct Hf as (_ & H2 & H3 & H4). simpl. rewrite H2, H3, H4. repeat split.
Qed.

Lemma relation_unchanged (c : config) (p : list (string * json)) :
  relation_settled p = true -> relation_changed p (params_after_query c p) = false.
Proof.
  intros Hs. unfold params_after_query.
  destruct (query_params (meta_fields c) p) as [q p'|e] eqn:E.
  - destruct (query_params_effect _ _ q p' E) as [->|(mq & Hm & ->)].
    + unfold relation_changed. destruct (get_prop "meta_query" p) as [[]|]; try reflexivity.
      destruct (get_prop "relation" kvs) as [a|]; [|reflexivity].
      now destruct (strict_eq a (JStr "AND")).
    + unfold relation_changed, relation_settled in *. rewrite Hm in *. rewrite get_define_same.
      rewrite get_set_same by discriminate. simpl.
      destruct (get_prop "relation" mq) as [a|]; [|reflexivity]. rewrite Hs. reflexivity.
  - unfold relation_changed. destruct (get_prop "meta_query" p) as [[]|]; try reflexivity.
    destruct (get_prop "relation" kvs) as [a|]; [|reflexivity].
    now destruct (strict_eq a (JStr "AND")).
Qed.

(** A reaction with no page selection pending sets [pagenum] to 1. *)
Lemma handler_resets_page (c : config) (s : rstate) :
  page_updated s = false -> get_prop "pagenum" (params (fst (handler c s))) = Some (JNum 1).
Proof.
  intros Hp. unfold handler. rewrite Hp.
  destruct (vue_assign "pagenum" (JNum 1) s) as [s1 t1] eqn:E. simpl.
  rewrite params_after_query_other by discriminate.
  replace s1 with (fst (vue_assign "pagenum" (JNum 1) s)) by now rewrite E.
  apply vue_assign_get. discriminate.
Qed.

(** A reaction with a page selection pending keeps [params] but for the
    query's write. *)
Lemma handler_page_selected (c : config) (s : rstate) :
  page_updated s = true ->
  params (fst (handler c s)) = params_after_query c (params s)
  /\ snd (handler c s) = relation_changed (params s) (params_after_query c (params s)).
Proof. intros Hp. unfold handler. rewrite Hp. split; reflexivity. Qed.

Lemma reactions_keep_page_one (fuel : nat) (c : config) (armed : bool) (s : rstate) (t : bool) :
  page_updated s = false -> get_prop "pagenum" (params s) = Some (JNum 1) ->
  get_prop "pagenum" (params (fst (reactions fuel c armed s t))) = Some (JNum 1).
Proof.
  revert armed s t. induction fuel as [|f IH]; intros armed s t Hp Hn; simpl; [exact Hn|].
  destruct t; [|exact Hn].
  destruct (handler c s) as [s1 t1] eqn:E.
  destruct (reactions f c false s1 t1) as [s' log] eqn:E'. simpl.
  replace s' with (fst (reactions f c false s1 t1)) by now rewrite E'.
  destruct (handler_facts c s) as (_ & Hp1 & _). rewrite E in Hp1.
  apply IH; [exact Hp1|].
  replace s1 with (fst (handler c s)) by now rewrite E. now apply handler_resets_page.
Qed.

Lemma reactions_head (f : nat) (c : config) (armed : bool) (s : rstate) :
  reactions (S f) c armed s true
  = (fst (reactions f c false (fst (handler c s)) (snd (handler c s))),
     (armed, s, fst (handler c s)) :: snd (reactions f c false (fst (handler c s)) (snd (handler c s)))).
Proof.
  simpl. destruct (handler c s) as [s1 t1]. simpl.
  destruct (reactions f c false s1 t1). reflexivity.
Qed.

Lemma step_pop_log (c : config) (s : rstate) (armed : bool) (state : option (list (string * json))) :
  listening s = true ->
  exists log, snd (step c (Pop state) (s, armed))
              = (true, pop_listener c state s, fst (handler c (pop_listener c state s))) :: log.
Proof.
  intros Hl. unfold step. rewrite Hl. unfold reaction_limit. rewrite reactions_head.
  eexists. reflexivity.
Qed.

(** ** C9 *)

(** C9: a [POP] navigation carrying a snapshot [location.state] sets
    [params] to exactly that snapshot, and the reaction it triggers does not
    reset the page: every property of the snapshot other than [meta_query]
    (whose [relation] the query may write) keeps its value, [pagenum]
    included.  A [POP] without a snapshot sets [params] to
    [merge({}, this.initialParams(), this.initial_taxonomies)].  In both
    cases the history listener's change is the first reaction of the step. *)
Theorem pop_restores (c : config) (s : rstate) (armed : bool) (st : list (string * json)) :
  listening s = true ->
  (params (pop_listener c (Some st) s) = st
   /\ (exists log, snd (step c (Pop (Some st)) (s, armed))
        = (true, pop_listener c (Some st) s, fst (handler c (pop_listener c (Some st) s))) :: log)
   /\ (forall k, k <> "meta_query" ->
        get_prop k (params (fst (handler c (pop_listener c (Some st) s)))) = get_prop k st))
  /\ (params (pop_listener c None s) = merge_object (merge_object [] (initialParams c)) (initial_taxonomies c)
      /\ exists log, snd (step c (Pop None) (s, armed))
           = (true, pop_listener c None s, fst (handler c (pop_listener c None s))) :: log).
Proof.
  intros Hl. split; [split; [reflexivity | split]| split; [reflexivity|]].
  - now apply step_pop_log.
  - intros k Hk. destruct (handler_page_selected c (pop_listener c (Some st) s) eq_refl) as [-> _].
    simpl. now apply params_after_query_other.
  - now apply step_pop_log.
Qed.

Lemma pop_restores_witness :
  let s := fst (fst (run example_config "" [])) in
  listening s = true
  /\ get_prop "pagenum"
       (params (fst (handler example_config
                      (pop_listener example_config (Some [("pagenum", JNum 3); ("search", JStr "x")]) s))))
     = Some (JNum 3).
Proof.
  intros s. split; [vm_compute; reflexivity|].
  destruct (pop_restores example_config s false [("pagenum", JNum 3); ("search", JStr "x")]
              ltac:(vm_compute; reflexivity)) as [[_ [_ H]] _].
  apply (H "pagenum"). discriminate.
Defined.

(** ** C3 *)

Lemma relation_settled_ext (p p' : list (string * json)) :
  get_prop "meta_query" p = get_prop "meta_query" p' -> relation_settled p = relation_settled p'.
Proof. intros H. unfold relation_settled. now rewrite H. Qed.

Lemma reactions_idle (f : nat) (c : config) (armed : bool) (s : rstate) :
  reactions f c armed s false = (s, []).
Proof. destruct f; reflexivity. Qed.

(** C3 (counterexample): [selectPage] does not check its argument; after
    the mount, [selectPage(0)] leaves [pagenum] at 0 once its reaction is
    done. *)
Lemma selectPage_counterexample :
  get_prop "pagenum"
    (params (after_call example_config (SelectPage (JNum 0)) (fst (fst (run example_config "" [])))))
  = Some (JNum 0).
Proof. vm_compute. reflexivity. Qed.

(** C3 (amended): [selectPage(page)] leaves [pagenum] equal to [page],
    whatever the value, after its reactions, provided [meta_query.relation]
    is absent or already ['AND'] (otherwise the query's write of it
    notifies the watcher again and that second reaction resets the page).
    A call that is not a page selection and notifies the watcher while no
    page selection is pending ([__page_updated] false, as after every
    reaction) leaves [pagenum] equal to 1 after its reactions. *)
Theorem page_reset_rule (c : config) (s : rstate) :
  (relation_settled (params s) = true ->
   forall page, get_prop "pagenum" (params (after_call c (SelectPage page) s)) = Some page)
  /\ (forall m s', (forall page, m <> SelectPage page) -> page_updated s = false ->
        call c m s = Some (s', true) ->
        get_prop "pagenum" (params (after_call c m s)) = Some (JNum 1)).
Proof.
  split.
  - intros Hs page. unfold after_call, step. simpl call.
    set (s' := set_page_updated true s).
    assert (Hp : page_updated (fst (vue_assign "pagenum" page s')) = true).
    { destruct (vue_assign_fields "pagenum" page s') as [-> _]. reflexivity. }
    assert (Hn : get_prop "pagenum" (params (fst (vue_assign "pagenum" page s'))) = Some page).
    { apply vue_assign_get. discriminate. }
    assert (Hm : relation_settled (params (fst (vue_assign "pagenum" page s'))) = true).
    { rewrite <- Hs. apply relation_settled_ext. now rewrite vue_assign_other by discriminate. }
    destruct (vue_assign "pagenum" page s') as [s1 t] eqn:E. simpl in Hp, Hn, Hm.
    destruct t.
    + unfold reaction_limit. rewrite reactions_head.
      destruct (handler_page_selected c s1 Hp) as [H1 H2].
      rewrite H2, relation_unchanged by exact Hm. rewrite reactions_idle. simpl.
      rewrite H1. rewrite params_after_query_other by discriminate. exact Hn.
    + rewrite reactions_idle. exact Hn.
  - intros m s' Hm Hp Hc. unfold after_call, step. rewrite Hc.
    unfold reaction_limit. rewrite reactions_head.
    destruct (call_fields c m s s' true Hc) as (_ & _ & _ & Hpu).
    assert (Hp' : page_updated s' = false) by now rewrite Hpu.
    destruct (handler_facts c s') as (_ & Hp1 & _).
    destruct (reactions _ _ _ (fst (handler c s')) (snd (handler c s'))) as [s'' log] eqn:E.
    simpl. replace s'' with (fst (reactions 100 c false (fst (handler c s')) (snd (handler c s'))))
      by now rewrite E.
    apply reactions_keep_page_one; [exact Hp1|]. now apply handler_resets_page.
Qed.

Lemma page_reset_rule_witness :
  let s := fst (fst (run example_config "" [])) in
  get_prop "pagenum" (params (after_call example_config (SelectPage (JNum 0)) s)) = Some (JNum 0)
  /\ get_prop "pagenum" (params (after_call example_config (SetSearch (JStr "x")) s)) = Some (JNum 1).
Proof.
  intros s. destruct (page_reset_rule example_config s) as [H1 H2]. split.
  - apply H1. vm_compute. reflexivity.
  - apply (H2 (SetSearch (JStr "x")) (fst (vue_assign "search" (JStr "x") s))).
    + intros page. discriminate.
    + vm_compute. reflexivity.
    + vm_compute. reflexivity.
Defined.

(** ** C4 *)













(** * Further properties *)

(** ** [pages] *)

Lemma range9 (s : Z) :
  range s (s + 9) = [s; s + 1; s + 2; s + 3; s + 4; s + 5; s + 6; s + 7; s + 8]%Z.
Proof.
  unfold range. rewrite (proj2 (Z.ltb_lt s (s + 9))) by lia.
  replace (Z.to_nat (Z.abs (s + 9 - s))) with 9 by lia. simpl.
  repeat (apply f_equal2; [lia|]). reflexivity.
Qed.

Ltac decide_Z :=
  repeat match goal with
  | |- context [(1 <? ?x)%Z] =>
      first [rewrite (proj2 (Z.ltb_ge 1 x)) by lia | rewrite (proj2 (Z.ltb_lt 1 x)) by lia]
  | |- context [(?a =? ?b)%Z] =>
      first [rewrite (proj2 (Z.eqb_eq a b)) by lia | rewrite (proj2 (Z.eqb_neq a b)) by lia]
  end.

Ltac pages_solve :=
  repeat (first [progress cbn [with_ellipses app map negb] | progress decide_Z]);
  try reflexivity.

(** With more than ten pages, [pages] lists the nine consecutive pages
    from [s = max(1, min(current - 4, total - 8))], page 1 and the last page,
    with an ellipsis at each gap. *)
Lemma pages_window_eq (total cur : Z) :
  (10 < total)%Z ->
  pages total cur =
  let s := Z.max 1 (Z.min (cur - 4) (total - 8)) in
  with_ellipses (app (if (s =? 1)%Z then [] else [1%Z])
                   (app (range s (s + 9)) (if (s + 8 =? total)%Z then [] else [total]))).
Proof.
  intros Ht. unfold pages.
  rewrite (proj2 (Z.eqb_neq total 0)) by lia. rewrite (proj2 (Z.leb_gt total 10)) by lia.
  cbv zeta.
  destruct (Z.leb_spec cur 4) as [H4|H4].
  - replace (Z.max 1 (Z.min (cur - 4) (total - 8))) with 1%Z by lia.
    replace (cur - (cur - 1))%Z with 1%Z by lia.
    replace (cur + (4 + (4 - (cur - 1))) + 1)%Z with (1 + 9)%Z by lia.
    rewrite range9. pages_solve.
  - destruct (Z.ltb_spec total (cur + 4)) as [H5|H5].
    + replace (Z.max 1 (Z.min (cur - 4) (total - 8))) with (total - 8)%Z by lia.
      replace (cur - (4 + (4 - (total - cur))))%Z with (total - 8)%Z by lia.
      replace (cur + (total - cur))%Z with total by lia.
      replace (total + 1)%Z with (total - 8 + 9)%Z by lia.
      rewrite range9. pages_solve.
    + replace (Z.max 1 (Z.min (cur - 4) (total - 8))) with (cur - 4)%Z by lia.
      replace (cur + 4 + 1)%Z with (cur - 4 + 9)%Z by lia.
      rewrite range9.
      destruct (Z.eqb_spec (cur - 4) 1); [pages_solve|].
      destruct (Z.eqb_spec (cur + 4) total); [pages_solve|].
      destruct (Z.eqb_spec (cur - 4) 2); destruct (Z.eqb_spec (cur + 4) (total - 1)); pages_solve.
Qed.

Lemma In_with_ellipses (a : Z) (l : list Z) : In (PageNum a) (with_ellipses l) <-> In a l.
Proof.
  induction l as [|x l IH]; [simpl; tauto|].
  destruct l as [|y l].
  - simpl. split; intros [H|H]; try contradiction; [left; congruence | now left; subst].
  - change (with_ellipses (x :: y :: l))
      with (PageNum x :: app (if (1 <? y - x)%Z then [Ellipsis] else []) (with_ellipses (y :: l))).
    simpl In at 1. rewrite in_app_iff. rewrite IH.
    assert (Hn : ~ In (PageNum a) (if (1 <? y - x)%Z then [Ellipsis] else [])).
    { destruct (1 <? y - x)%Z; simpl; [intros [H|[]]; discriminate | tauto]. }
    split.
    + intros [H|[H|H]]; [left; congruence | contradiction | right; exact H].
    + intros [H|H]; [left; congruence | right; right; exact H].
Qed.

Lemma In_range (a b x : Z) : (a <= x < b)%Z -> In x (range a b).
Proof.
  intros H. unfold range. rewrite (proj2 (Z.ltb_lt a b)) by lia.
  apply in_map_iff. exists (Z.to_nat (x - a)). split; [lia|].
  apply in_seq. lia.
Qed.

(** [pages] in closed form: with at most ten pages every page is listed;
    with more, page 1, the last page and nine consecutive pages from
    [s = max(1, min(current - 4, total - 8))], with an ellipsis exactly at
    each gap between neighbours.  This holds for every value of the current
    page, inside or outside [1..total]. *)
Theorem pages_shape (total cur : Z) :
  (0 < total)%Z ->
  pages total cur =
  if (total <=? 10)%Z then with_ellipses (range 1 (total + 1))
  else
    let s := Z.max 1 (Z.min (cur - 4) (total - 8)) in
    with_ellipses (app (if (s =? 1)%Z then [] else [1%Z])
                     (app (range s (s + 9)) (if (s + 8 =? total)%Z then [] else [total]))).
Proof.
  intros Ht. destruct (Z.leb_spec total 10) as [H|H].
  - assert (E : (total = 1 \/ total = 2 \/ total = 3 \/ total = 4 \/ total = 5 \/ total = 6
                \/ total = 7 \/ total = 8 \/ total = 9 \/ total = 10)%Z) by lia.
    repeat destruct E as [E|E]; subst; reflexivity.
  - now apply pages_window_eq.
Qed.

Lemma pages_shape_witness :
  (0 < 20)%Z /\
  pages 20 10 = with_ellipses [1; 6; 7; 8; 9; 10; 11; 12; 13; 14; 20]%Z.
Proof.
  split; [lia|]. rewrite (pages_shape 20 10) by lia. reflexivity.
Defined.

(** The current page is always listed when it lies in [1..total]. *)
Theorem pages_shows_current (total cur : Z) :
  (1 <= cur <= total)%Z -> In (PageNum cur) (pages total cur).
Proof.
  intros H. destruct (Z.leb_spec total 10) as [H10|H10].
  - unfold pages. rewrite (proj2 (Z.eqb_neq total 0)) by lia.
    rewrite (proj2 (Z.leb_le total 10)) by lia.
    apply in_map. apply In_range. lia.
  - rewrite pages_window_eq by lia. cbv zeta. apply In_with_ellipses.
    apply in_app_iff. right. apply in_app_iff. left.
    apply In_range. lia.
Qed.

Lemma pages_shows_current_witness : (1 <= 17 <= 40)%Z /\ In (PageNum 17) (pages 40 17).
Proof. split; [lia | apply pages_shows_current; lia]. Defined.

(** ** [removeTerms] and [addTerms] on term IDs *)

Lemma remove_first_ids (z : Z) (zs : list Z) :
  NoDup zs -> remove_first (JNum z) (map JNum zs) = map JNum (filter (fun x => negb (x =? z)%Z) zs).
Proof.
  induction zs as [|x zs IH]; intros Hd; simpl; [reflexivity|].
  inversion Hd as [|? ? Hx Hd']; subst.
  destruct (Z.eqb_spec x z) as [->|Ne]; simpl.
  - f_equal. clear IH Hd. induction zs as [|y zs IHz]; simpl; [reflexivity|].
    inversion Hd' as [|? ? Hy Hd'']; subst.
    destruct (Z.eqb_spec y z) as [->|Ne']; [exfalso; apply Hx; now left|].
    simpl. f_equal. apply IHz; [intros Hin; apply Hx; now right | exact Hd''].
  - f_equal. now apply IH.
Qed.

Lemma NoDup_filter_Z (f : Z -> bool) (zs : list Z) : NoDup zs -> NoDup (filter f zs).
Proof.
  induction zs as [|x zs IH]; intros Hd; simpl; [constructor|].
  inversion Hd as [|? ? Hx Hd']; subst.
  destruct (f x); [|now apply IH].
  constructor; [|now apply IH]. intros Hin. apply filter_In in Hin as [Hin _]. contradiction.
Qed.

Lemma filter_filter_Z (f g : Z -> bool) (l : list Z) :
  filter f (filter g l) = filter (fun x => g x && f x) l.
Proof.
  induction l as [|x l IH]; simpl; [reflexivity|].
  destruct (g x); simpl; [destruct (f x); simpl; rewrite IH; reflexivity | exact IH].
Qed.

Lemma remove_ids_fold (ids zs : list Z) :
  NoDup zs ->
  fold_left (fun acc t => remove_first t acc) (map JNum ids) (map JNum zs)
  = map JNum (filter (fun x => negb (existsb (Z.eqb x) ids)) zs).
Proof.
  revert zs. induction ids as [|i ids IH]; intros zs Hd; simpl.
  - f_equal. induction zs as [|x zs IHz]; simpl; [reflexivity|]. f_equal.
    inversion Hd; subst. now apply IHz.
  - rewrite remove_first_ids by exact Hd. rewrite IH by now apply NoDup_filter_Z.
    f_equal. rewrite filter_filter_Z. apply filter_ext. intros x. simpl.
    now destruct (x =? i)%Z.
Qed.

Lemma filter_length_eq {A : Type} (f : A -> bool) (l : list A) :
  (length (filter f l) =? length l) = forallb f l.
Proof.
  induction l as [|x l IH]; simpl; [reflexivity|].
  destruct (f x); simpl; [exact IH|].
  apply Nat.eqb_neq. pose proof (filter_length_le f l) as H. simpl in H. lia.
Qed.

Lemma negb_forallb_negb {A : Type} (f : A -> bool) (l : list A) :
  negb (forallb (fun x => negb (f x)) l) = existsb f l.
Proof. induction l as [|x l IH]; simpl; [reflexivity|]. rewrite negb_andb, negb_involutive, IH. reflexivity. Qed.

Lemma filter_all {A : Type} (f : A -> bool) (l : list A) :
  (forall x, In x l -> f x = true) -> filter f l = l.
Proof.
  intros H. induction l as [|x l IH]; simpl; [reflexivity|].
  rewrite H by now left. f_equal. apply IH. intros y Hy. apply H. now right.
Qed.

Lemma define_define_other {A : Type} (k : string) (v1 v2 : A) (o : list (string * A)) :
  define_prop k v2 (define_prop k v1 o) = define_prop k v2 o.
Proof.
  induction o as [|[k' v'] o IH]; simpl.
  - now rewrite String.eqb_refl.
  - destruct (String.eqb k k') eqn:E; simpl; rewrite E; [reflexivity | now rewrite IH].
Qed.

Lemma removeTerms_ids_eq (taxonomy : string) (terms : json) (ids zs : list Z) (p : list (string * json)) :
  id_terms terms = Some ids -> get_prop taxonomy p = Some (JArr (map JNum zs)) -> NoDup zs ->
  removeTerms taxonomy terms p =
  Some (define_prop taxonomy (JArr (map JNum (filter (fun z => negb (existsb (Z.eqb z) ids)) zs))) p,
        existsb (fun z => existsb (Z.eqb z) ids) zs).
Proof.
  intros Hi Hg Hd. unfold removeTerms. rewrite (id_terms_array _ _ Hi).
  destruct ids as [|i ids'].
  - simpl. rewrite filter_all by (intros; reflexivity). rewrite (define_get _ _ _ Hg).
    f_equal. f_equal. clear Hg Hd. induction zs as [|z zs IH]; simpl; [reflexivity | exact IH].
  - change (map JNum (i :: ids')) with (JNum i :: map JNum ids'). cbv iota beta.
    rewrite Hg. change (JNum i :: map JNum ids') with (map JNum (i :: ids')).
    rewrite remove_ids_fold by exact Hd. rewrite !length_map, filter_length_eq, negb_forallb_negb.
    reflexivity.
Qed.

Lemma addTerms_ids_eq (taxonomy : string) (terms : json) (ids zs : list Z) (p : list (string * json)) :
  id_terms terms = Some ids -> get_prop taxonomy p = Some (JArr (map JNum zs)) ->
  exists b, addTerms taxonomy terms p = Some (define_prop taxonomy (JArr (map JNum (add_ids ids zs))) p, b).
Proof.
  intros Hi Hg. unfold addTerms. rewrite (id_terms_array _ _ Hi).
  destruct ids as [|i ids'].
  - exists false. simpl. unfold add_ids. simpl. now rewrite (define_get _ _ _ Hg).
  - change (map JNum (i :: ids')) with (JNum i :: map JNum ids'). cbv iota beta.
    rewrite Hg. change (JNum i :: map JNum ids') with (map JNum (i :: ids')).
    rewrite addTerms_list_ids. eexists. reflexivity.
Qed.

(** [removeTerms] with one term ID or an array of IDs, on a taxonomy whose
    term list holds distinct IDs, removes exactly the given IDs that are in
    the list and keeps the others in their order; it modifies the list
    (and so notifies the watcher) exactly when one of the IDs was
    present. *)
Theorem removeTerms_ids (taxonomy : string) (terms : json) (ids zs : list Z) (p : list (string * json)) :
  id_terms terms = Some ids -> get_prop taxonomy p = Some (JArr (map JNum zs)) -> NoDup zs ->
  removeTerms taxonomy terms p =
  Some (define_prop taxonomy (JArr (map JNum (filter (fun z => negb (existsb (Z.eqb z) ids)) zs))) p,
        existsb (fun z => existsb (Z.eqb z) ids) zs).
Proof. apply removeTerms_ids_eq. Qed.

Lemma removeTerms_ids_witness :
  id_terms (JArr [JNum 7; JNum 9]) = Some [7; 9]%Z
  /\ removeTerms "category" (JArr [JNum 7; JNum 9]) [("category", JArr [JNum 3; JNum 7; JNum 5])]
     = Some ([("category", JArr [JNum 3; JNum 5])], true).
Proof.
  split; [reflexivity|].
  rewrite (removeTerms_ids "category" (JArr [JNum 7; JNum 9]) [7; 9]%Z [3; 7; 5]%Z); [reflexivity | reflexivity | reflexivity |].
  repeat constructor; simpl; lia.
Defined.

(** On a taxonomy whose list holds distinct numeric IDs, [addTerms]
    followed by [removeTerms] with the same numeric ID or array of numeric
    IDs leaves the list without any of those IDs and with its other IDs in
    their order: when none of them was in the list, [params] is back to
    its former value.  (With a repeated ID, [{category: [7, 7]}], adding
    and removing 7 leaves [[7]]: [removeTerms] takes out one occurrence.) *)
Theorem add_then_remove_terms (taxonomy : string) (terms : json) (ids zs : list Z)
    (p : list (string * json)) :
  id_terms terms = Some ids -> get_prop taxonomy p = Some (JArr (map JNum zs)) -> NoDup zs ->
  exists p1 b1 b2,
    addTerms taxonomy terms p = Some (p1, b1)
    /\ removeTerms taxonomy terms p1
       = Some (define_prop taxonomy (JArr (map JNum (filter (fun z => negb (existsb (Z.eqb z) ids)) zs))) p, b2)
    /\ ((forall z, In z ids -> ~ In z zs) ->
        define_prop taxonomy (JArr (map JNum (filter (fun z => negb (existsb (Z.eqb z) ids)) zs))) p = p).
Proof.
  intros Hi Hg Hd.
  destruct (addTerms_ids_eq taxonomy terms ids zs p Hi Hg) as [b1 Ha].
  destruct (add_ids_shape ids zs) as (extra & Hs & Hex & Hnd & _).
  exists (define_prop taxonomy (JArr (map JNum (add_ids ids zs))) p), b1,
    (existsb (fun z => existsb (Z.eqb z) ids) (add_ids ids zs)).
  split; [exact Ha|]. split.
  - rewrite (removeTerms_ids_eq taxonomy terms ids (add_ids ids zs)); [| exact Hi | apply get_define_same |].
    + rewrite define_define_other. rewrite Hs, filter_app.
      replace (filter (fun z => negb (existsb (Z.eqb z) ids)) extra) with (@nil Z); [now rewrite app_nil_r|].
      clear Hs Hnd. induction extra as [|e extra IH]; simpl; [reflexivity|].
      inversion Hex as [|? ? [He _] Hex']; subst.
      apply existsb_Z in He. rewrite He. simpl. now apply IH.
    + rewrite Hs. now apply Hnd.
  - intros Hdis. rewrite filter_all.
    + now apply define_get.
    + intros z Hz. destruct (existsb (Z.eqb z) ids) eqn:E; [|reflexivity].
      apply existsb_Z in E. exfalso. exact (Hdis z E Hz).
Qed.

Lemma add_then_remove_terms_witness :
  id_terms (JArr [JNum 7; JNum 9]) = Some [7; 9]%Z
  /\ get_prop "category" [("category", JArr [JNum 3; JNum 5])] = Some (JArr (map JNum [3; 5]%Z))
  /\ NoDup [3; 5]%Z
  /\ exists p1 b1 b2,
       addTerms "category" (JArr [JNum 7; JNum 9]) [("category", JArr [JNum 3; JNum 5])] = Some (p1, b1)
       /\ removeTerms "category" (JArr [JNum 7; JNum 9]) p1 = Some ([("category", JArr [JNum 3; JNum 5])], b2).
Proof.
  assert (Hd : NoDup [3; 5]%Z) by (repeat constructor; simpl; lia).
  split; [reflexivity|]. split; [reflexivity|]. split; [exact Hd|].
  destruct (add_then_remove_terms "category" (JArr [JNum 7; JNum 9]) [7; 9]%Z [3; 5]%Z
              [("category", JArr [JNum 3; JNum 5])] eq_refl eq_refl Hd) as (p1 & b1 & b2 & H1 & H2 & _).
  exists p1, b1, b2. split; [exact H1|]. rewrite H2. reflexivity.
Defined.

(** ** [setMetaFilter] and [removeMetaFilter] *)

Lemma delete_define_fresh {A : Type} (k : string) (v : A) (o : list (string * A)) :
  get_prop k o = None -> delete_prop k (define_prop k v o) = o.
Proof.
  induction o as [|[k' v'] o IH]; simpl.
  - intros _. now rewrite String.eqb_refl.
  - destruct (String.eqb k k') eqn:E; [discriminate|]. intros H. simpl. rewrite E. now rewrite IH.
Qed.

Lemma get_app_fresh {A : Type} (k : string) (v : A) (o : list (string * A)) :
  get_prop k o = None -> define_prop k v o = app o [(k, v)].
Proof.
  induction o as [|[k' v'] o IH]; simpl; [reflexivity|].
  destruct (String.eqb k k') eqn:E; [discriminate|]. intros H. now rewrite IH.
Qed.

(** [setMetaFilter(field, value)] on a field without a filter appends the
    filter [{field, value}] to [params.meta_query]; a following
    [removeMetaFilter(field)] gives back exactly the former [params], and
    both calls notify the watcher alike. *)
Theorem meta_filter_roundtrip (c : config) (s : rstate) (mq : list (string * json))
    (field : string) (value : json) :
  get_prop "meta_query" (params s) = Some (JObj mq) -> get_prop field mq = None ->
  exists s1 s2 t,
    call c (SetMetaFilter field value) s = Some (s1, t)
    /\ get_prop "meta_query" (params s1)
       = Some (JObj (app mq [(field, JObj [("field", JStr field); ("value", value)])]))
    /\ call c (RemoveMetaFilter field) s1 = Some (s2, t)
    /\ params s2 = params s.
Proof.
  intros Hm Hf. simpl call. rewrite Hm.
  set (x := JObj [("field", JStr field); ("value", value)]).
  set (s1 := set_params (define_prop "meta_query" (JObj (define_prop field x mq)) (params s)) (plain_keys s) s).
  assert (H1 : get_prop "meta_query" (params s1) = Some (JObj (define_prop field x mq)))
    by apply get_define_same.
  exists s1, (set_params (define_prop "meta_query" (JObj (delete_prop field (define_prop field x mq))) (params s1))
                (plain_keys s1) s1), (negb (is_plain "meta_query" s)).
  split; [reflexivity|]. split; [rewrite H1; now rewrite get_app_fresh by exact Hf|].
  split.
  - rewrite H1. rewrite get_define_same. reflexivity.
  - simpl. rewrite delete_define_fresh by exact Hf. rewrite define_define_other.
    now apply define_get.
Qed.

Lemma meta_filter_roundtrip_witness :
  let s := fst (fst (run example_config "" [])) in
  get_prop "meta_query" (params s) = Some (JObj [])
  /\ exists s1 s2 t,
       call example_config (SetMetaFilter "price" (JNum 5)) s = Some (s1, t)
       /\ call example_config (RemoveMetaFilter "price") s1 = Some (s2, t) /\ params s2 = params s.
Proof.
  intros s. assert (Hm : get_prop "meta_query" (params s) = Some (JObj [])) by (vm_compute; reflexivity).
  split; [exact Hm|].
  destruct (meta_filter_roundtrip example_config s [] "price" (JNum 5) Hm eq_refl)
    as (s1 & s2 & t & H1 & _ & H3 & H4).
  exists s1, s2, t. auto.
Defined.

(** ** [toggleOrder], [selectOrderBy] and [isOrderedBy] *)

(** [toggleOrder] never throws: it sets [order] to ['desc'] when it is
    ['asc'] and to ['asc'] otherwise; from ['asc'] or ['desc'], toggling
    twice gives back the former [params]. *)
Theorem toggleOrder_twice (s : rstate) :
  exists s1 t1,
    toggleOrder s = Some (s1, t1)
    /\ get_prop "order" (params s1)
       = Some (match get_prop "order" (params s) with
               | Some o => if strict_eq o (JStr "asc") then JStr "desc" else JStr "asc"
               | None => JStr "asc"
               end)
    /\ ((get_prop "order" (params s) = Some (JStr "asc") \/ get_prop "order" (params s) = Some (JStr "desc")) ->
        exists s2 t2, toggleOrder s1 = Some (s2, t2) /\ params s2 = params s).
Proof.
  assert (Hset : forall o s0, strict_eq o (JStr "asc") || strict_eq o (JStr "desc") = true ->
            setOrder o s0 = Some (vue_assign "order" o s0)).
  { intros o s0 H. unfold setOrder. now rewrite H. }
  assert (Hg : forall o s0, get_prop "order" (params (fst (vue_assign "order" o s0))) = Some o).
  { intros. apply vue_assign_get. discriminate. }
  assert (Hp : forall o s0, params (fst (vue_assign "order" o s0)) = define_prop "order" o (params s0)).
  { intros o s0. unfold vue_assign. destruct (get_prop "order" (params s0)); reflexivity. }
  unfold toggleOrder at 1.
  destruct (get_prop "order" (params s)) as [o|] eqn:Eo.
  - destruct (strict_eq o (JStr "asc")) eqn:Ea.
    + rewrite Hset by reflexivity. exists (fst (vue_assign "order" (JStr "desc") s)), (snd (vue_assign "order" (JStr "desc") s)).
      split; [now destruct (vue_assign _ _ _)|]. split; [apply Hg|].
      intros _. unfold toggleOrder. rewrite Hg. simpl. rewrite Hset by reflexivity.
      match goal with |- exists _ _, Some ?x = _ /\ _ => exists (fst x), (snd x); split; [now destruct x|] end.
      rewrite Hp, Hp, define_define_other. apply define_get.
      destruct o; try discriminate. simpl in Ea. apply String.eqb_eq in Ea. now subst.
    + rewrite Hset by reflexivity. exists (fst (vue_assign "order" (JStr "asc") s)), (snd (vue_assign "order" (JStr "asc") s)).
      split; [now destruct (vue_assign _ _ _)|]. split; [apply Hg|].
      intros [H|H]; inversion H; subst; [discriminate|].
      unfold toggleOrder. rewrite Hg. simpl. rewrite Hset by reflexivity.
      match goal with |- exists _ _, Some ?x = _ /\ _ => exists (fst x), (snd x); split; [now destruct x|] end.
      rewrite Hp, Hp, define_define_other. now apply define_get.
  - rewrite Hset by reflexivity. exists (fst (vue_assign "order" (JStr "asc") s)), (snd (vue_assign "order" (JStr "asc") s)).
    split; [now destruct (vue_assign _ _ _)|]. split; [apply Hg|].
    intros [H|H]; discriminate.
Qed.

Lemma strict_eq_str_refl (x : string) : strict_eq (JStr x) (JStr x) = true.
Proof. simpl. apply String.eqb_refl. Qed.

(** [selectOrderBy(orderby, default_order)] for a field the list is not
    ordered by sets [order] to [default_order] (['asc'] when it is falsy)
    and then [isOrderedBy(orderby, default_order)] holds; a second call for
    the same field reverses the direction, so [isOrderedBy] then holds for
    the other direction. A [default_order] other than ['asc'] and ['desc']
    makes that first call throw. *)
Theorem selectOrderBy_twice (ob : string) (d : json) (s : rstate) :
  (forall o, get_prop "orderby" (params s) = Some o -> strict_eq o (JStr ob) = false) ->
  let d' := if truthy d then d else JStr "asc" in
  (strict_eq d' (JStr "asc") || strict_eq d' (JStr "desc") = false ->
     selectOrderBy (JStr ob) d s = None)
  /\ (strict_eq d' (JStr "asc") || strict_eq d' (JStr "desc") = true ->
     exists s1 t1 s2 t2,
       selectOrderBy (JStr ob) d s = Some (s1, t1)
       /\ isOrderedBy (JStr ob) d' (params s1) = true
       /\ selectOrderBy (JStr ob) d s1 = Some (s2, t2)
       /\ isOrderedBy (JStr ob) (if strict_eq d' (JStr "asc") then JStr "desc" else JStr "asc") (params s2) = true).
Proof.
  intros Hne d'.
  assert (Hfirst : match get_prop "orderby" (params s) with
             | Some o => if strict_eq o (JStr ob) then toggleOrder s else setOrder d' s
             | None => setOrder d' s
             end = setOrder d' s).
  { destruct (get_prop "orderby" (params s)) as [o|] eqn:E; [|reflexivity].
    now rewrite (Hne o eq_refl). }
  unfold selectOrderBy at 1 2. cbv zeta. fold d'. rewrite Hfirst. unfold setOrder at 1 2.
  split; [intros H; now rewrite H|].
  intros Hd. rewrite Hd.
  destruct (vue_assign "order" d' s) as [s0 t0] eqn:E0.
  assert (G0 : get_prop "order" (params s0) = Some d').
  { replace s0 with (fst (vue_assign "order" d' s)) by now rewrite E0. apply vue_assign_get. discriminate. }
  destruct (vue_assign "orderby" (JStr ob) s0) as [s1 t1] eqn:E1.
  assert (G1 : get_prop "orderby" (params s1) = Some (JStr ob)).
  { replace s1 with (fst (vue_assign "orderby" (JStr ob) s0)) by now rewrite E1. apply vue_assign_get. discriminate. }
  assert (G1' : get_prop "order" (params s1) = Some d').
  { replace s1 with (fst (vue_assign "orderby" (JStr ob) s0)) by now rewrite E1.
    rewrite vue_assign_other by discriminate. exact G0. }
  assert (Hdd : strict_eq d' d' = true).
  { apply orb_true_iff in Hd. destruct Hd as [Hd|Hd];
      destruct d' as [| | |x| |]; try discriminate; simpl in Hd; apply String.eqb_eq in Hd; subst;
      apply strict_eq_str_refl. }
  assert (Htog : exists s2 t2, toggleOrder s1 = Some (s2, t2)
            /\ get_prop "order" (params s2) = Some (if strict_eq d' (JStr "asc") then JStr "desc" else JStr "asc")
            /\ get_prop "orderby" (params s2) = Some (JStr ob)).
  { unfold toggleOrder, setOrder. rewrite G1'.
    destruct (strict_eq d' (JStr "asc")); simpl;
    match goal with |- exists _ _, Some ?x = _ /\ _ => exists (fst x), (snd x); split; [now destruct x|] end;
    (split; [apply vue_assign_get; discriminate|]);
    rewrite vue_assign_other by discriminate; exact G1. }
  destruct Htog as (s2 & t2 & T & T1 & T2).
  destruct (vue_assign "orderby" (JStr ob) s2) as [s3 t3] eqn:E3.
  exists s1, (t0 || t1), s3, (t2 || t3). split; [reflexivity|].
  split.
  { unfold isOrderedBy. rewrite G1, G1', strict_eq_str_refl, Hdd. reflexivity. }
  split.
  { unfold selectOrderBy. rewrite G1, strict_eq_str_refl, T, E3. reflexivity. }
  unfold isOrderedBy.
  replace s3 with (fst (vue_assign "orderby" (JStr ob) s2)) by now rewrite E3.
  rewrite vue_assign_get by discriminate. rewrite vue_assign_other by discriminate.
  rewrite T1, strict_eq_str_refl. destruct (strict_eq d' (JStr "asc")); apply strict_eq_str_refl.
Qed.

Lemma selectOrderBy_twice_witness :
  let s := fst (fst (run example_config "" [])) in
  exists s1 t1 s2 t2,
    selectOrderBy (JStr "price") JNull s = Some (s1, t1)
    /\ isOrderedBy (JStr "price") (JStr "asc") (params s1) = true
    /\ selectOrderBy (JStr "price") JNull s1 = Some (s2, t2)
    /\ isOrderedBy (JStr "price") (JStr "desc") (params s2) = true.
Proof.
  intros s.
  assert (H : forall o, get_prop "orderby" (params s) = Some o -> strict_eq o (JStr "price") = false).
  { intros o Ho. vm_compute in Ho. inversion Ho. reflexivity. }
  exact (proj2 (selectOrderBy_twice "price" JNull s H) eq_refl).
Defined.

(** ** [joinTerms] *)

Lemma term_names_strs (ts : list json) (ns : list string) :
  Forall2 (fun t n => exists kvs, t = JObj kvs /\ get_prop "name" kvs = Some (JStr n)) ts ns ->
  term_names ts = Some ns.
Proof.
  induction 1 as [|t n ts ns (kvs & -> & Hn) _ IH]; simpl; [reflexivity|].
  now rewrite Hn, IH.
Qed.

(** For a non-empty list of terms whose names are strings, [joinTerms]
    with a one-character separator that no name contains can be split back
    on that separator into the names, in order.  (An empty list joins to
    [''], which splits to [['']].) *)
Theorem joinTerms_split (terms : list (string * json)) (taxonomy : string) (c : ascii)
    (ts : list json) (ns : list string) :
  get_prop taxonomy terms = Some (JArr ts) ->
  Forall2 (fun t n => exists kvs, t = JObj kvs /\ get_prop "name" kvs = Some (JStr n)) ts ns ->
  ns <> [] -> Forall (fun n => no_char c n = true) ns ->
  exists out, joinTerms terms taxonomy (String c "") = Some out /\ split_on c out = ns.
Proof.
  intros Ht Hn Hne Hc. unfold joinTerms. rewrite Ht, (term_names_strs ts ns Hn).
  eexists. split; [reflexivity|]. now apply split_on_concat.
Qed.

Lemma joinTerms_split_witness :
  exists out,
    joinTerms [("category", JArr [JObj [("id", JNum 3); ("name", JStr "News")];
                                  JObj [("name", JStr "Events")]])] "category" "|" = Some out
    /\ split_on "|" out = ["News"; "Events"].
Proof.
  apply (joinTerms_split _ "category" "|"
           [JObj [("id", JNum 3); ("name", JStr "News")]; JObj [("name", JStr "Events")]]).
  - reflexivity.
  - repeat constructor; eexists; split; reflexivity.
  - discriminate.
  - repeat constructor.
Defined.

(** ** Grouping the embedded terms *)

Definition push_step (acc : option (list (string * json))) (term : json) :=
  match acc with Some g => push_term g term | None => None end.

Lemma group_terms_concat (wt : list (list json)) :
  group_terms wt = fold_left push_step (concat wt) (Some []).
Proof.
  unfold group_terms. generalize (Some (@nil (string * json))) as a.
  induction wt as [|l wt IH]; intros a; simpl; [reflexivity|].
  rewrite fold_left_app, IH. f_equal.
  destruct l; reflexivity.
Qed.

Definition grouped (k : string) (done : list json) : option json :=
  match terms_under k done with [] => None | l => Some (JArr l) end.

Lemma push_step_grouped (done : list json) (g : list (string * json)) (t : json) (k0 : string) :
  (forall k, get_prop k g = grouped k done) ->
  taxonomy_key t = Some k0 -> existsb (String.eqb k0) object_prototype_members = false ->
  exists g', push_step (Some g) t = Some g' /\ forall k, get_prop k g' = grouped k (app done [t]).
Proof.
  intros Hg Hk Hp. simpl. unfold push_term. rewrite Hk.
  assert (Hu : forall k, terms_under k (app done [t])
                = app (terms_under k done) (if String.eqb k0 k then [t] else [])).
  { intros k. unfold terms_under. rewrite filter_app. simpl. rewrite Hk.
    destruct (String.eqb k0 k); reflexivity. }
  assert (Ho : forall k, k <> k0 -> get_prop k g = grouped k (app done [t])).
  { intros k Hne. rewrite Hg. unfold grouped. rewrite Hu.
    destruct (String.eqb k0 k) eqn:E; [apply String.eqb_eq in E; congruence|].
    now rewrite app_nil_r. }
  rewrite (Hg k0). unfold grouped at 1.
  destruct (terms_under k0 done) as [|t0 l] eqn:Eu.
  - rewrite Hp. eexists. split; [reflexivity|]. intros k.
    destruct (String.eqb_spec k k0) as [->|Hne].
    + rewrite get_define_same. unfold grouped. rewrite Hu, Eu, String.eqb_refl. reflexivity.
    + rewrite get_define_other by exact Hne. now apply Ho.
  - eexists. split; [reflexivity|]. intros k.
    destruct (String.eqb_spec k k0) as [->|Hne].
    + rewrite get_define_same. unfold grouped. rewrite Hu, Eu, String.eqb_refl. reflexivity.
    + rewrite get_define_other by exact Hne. now apply Ho.
Qed.

(** When every embedded term names a taxonomy key that is not a member of
    [Object.prototype], the grouping never throws, and [item.terms[k]] is
    the array of the terms filed under [k], in the order the REST response
    lists them ([undefined] when there is none). *)
Theorem group_terms_spec (wp_term : list (list json)) :
  (forall t, In t (concat wp_term) ->
     exists k, taxonomy_key t = Some k /\ existsb (String.eqb k) object_prototype_members = false) ->
  exists g, group_terms wp_term = Some g
            /\ forall k, get_prop k g = match terms_under k (concat wp_term) with
                                        | [] => None | l => Some (JArr l) end.
Proof.
  intros H. rewrite group_terms_concat.
  assert (Gen : forall rest done g,
             (forall t, In t rest ->
                exists k, taxonomy_key t = Some k /\ existsb (String.eqb k) object_prototype_members = false) ->
             (forall k, get_prop k g = grouped k done) ->
             exists g', fold_left push_step rest (Some g) = Some g'
                        /\ forall k, get_prop k g' = grouped k (app done rest)).
  { induction rest as [|t rest IH]; intros done g Hr Hg.
    - exists g. split; [reflexivity|]. intros k. now rewrite app_nil_r.
    - destruct (Hr t (or_introl eq_refl)) as (k0 & Hk & Hp).
      destruct (push_step_grouped done g t k0 Hg Hk Hp) as (g1 & E1 & H1).
      cbn [fold_left]. rewrite E1. destruct (IH (app done [t]) g1) as (g' & E' & H').
      + intros t' Ht'. apply Hr. now right.
      + exact H1.
      + exists g'. split; [exact E'|]. intros k. rewrite H'. now rewrite <- app_assoc. }
  destruct (Gen (concat wp_term) [] [] H) as (g & E & Hk); [intros k; reflexivity|].
  exists g. split; [exact E|]. exact Hk.
Qed.

Lemma group_terms_spec_witness :
  let wt := [[JObj [("taxonomy", JStr "category"); ("name", JStr "News")]];
             [JObj [("taxonomy", JStr "post_tag"); ("name", JStr "a")];
              JObj [("taxonomy", JStr "post_tag"); ("name", JStr "b")]]] in
  exists g, group_terms wt = Some g
            /\ get_prop "tags" g = Some (JArr [JObj [("taxonomy", JStr "post_tag"); ("name", JStr "a")];
                                                JObj [("taxonomy", JStr "post_tag"); ("name", JStr "b")]]).
Proof.
  intros wt.
  assert (H : forall t, In t (concat wt) ->
     exists k, taxonomy_key t = Some k /\ existsb (String.eqb k) object_prototype_members = false).
  { intros t Ht. simpl in Ht.
    destruct Ht as [<-|[<-|[<-|[]]]]; eexists; split; reflexivity. }
  destruct (group_terms_spec wt H) as (g & E & Hk).
  exists g. split; [exact E|]. rewrite Hk. reflexivity.
Defined.

(** ** [parseInt] of the pagination headers *)

Lemma read_radix_uint (u : Decimal.uint) (acc : positive) :
  read_radix 10 (string_of_uint u) (Some (Z.pos acc)) = Some (Z.pos (Pos.of_uint_acc u acc)).
Proof.
  revert acc. induction u; intros acc; [reflexivity| ..];
    cbn [string_of_uint read_radix Pos.of_uint_acc];
    (match goal with |- match digit_value ?c with _ => _ end = _ =>
       let e := eval vm_compute in (digit_value c) in change (digit_value c) with e end);
    cbv iota beta;
    (match goal with |- (if (?d <? 10)%Z then _ else _) = _ =>
       let e := eval vm_compute in (d <? 10)%Z in change (d <? 10)%Z with e end);
    cbv iota beta;
    (match goal with |- read_radix _ _ (Some ?e) = Some (Z.pos (Pos.of_uint_acc _ ?q)) =>
       replace e with (Z.pos q) by lia end);
    apply IHu.
Qed.

Lemma parseInt_string_of_Z (n : Z) : parseInt (string_of_Z n) = Some n.
Proof.
  destruct n as [|p|p]; [reflexivity| |];
  destruct (pos_uint_shape p) as [Hn H0];
  pose proof (DecimalPos.Unsigned.of_to p) as Hp;
  destruct (Pos.to_uint p) as [|l|l|l|l|l|l|l|l|l|l] eqn:Eu;
    try (exfalso; apply Hn; reflexivity); try (exfalso; eapply H0; reflexivity);
    unfold string_of_Z; rewrite Eu; unfold parseInt; cbn [trim_start string_of_uint];
    (match goal with |- context [js_space ?c] =>
       let e := eval vm_compute in (js_space c) in change (js_space c) with e end);
    cbv iota beta; cbn [read_radix];
    (match goal with |- context [digit_value ?c] =>
       let e := eval vm_compute in (digit_value c) in change (digit_value c) with e end);
    cbv iota beta zeta;
    (match goal with |- context [(?d <? 10)%Z] =>
       let e := eval vm_compute in (d <? 10)%Z in change (d <? 10)%Z with e end);
    cbv iota beta;
    (match goal with |- context [read_radix 10 _ (Some ?e)] =>
       let e' := eval vm_compute in e in change e with e' end);
    rewrite read_radix_uint; simpl in Hp; inversion Hp; reflexivity.
Qed.

Lemma header_int_decimal (hs : list (string * string)) (name : string) :
  (forall n, get_prop name hs = Some (string_of_Z n) -> header_int hs name = Some n)
  /\ (get_prop name hs = None -> header_int hs name = None).
Proof.
  unfold header_int. split; intros; rewrite H; [apply parseInt_string_of_Z | vm_compute; reflexivity].
Qed.

(** After a fetch whose request is built and whose response body is JSON
    (of any value), [pagination_data.total] and
    [pagination_data.total_pages] are the integers the [X-WP-Total] and
    [X-WP-TotalPages] headers spell in decimal, and [NaN] when the header
    is missing. *)
Theorem fetchData_pagination {B : Type} (c : config) (p : list (string * json)) (f : fstate B)
    (hs : list (string * string)) (v : B) q p' :
  query_params (meta_fields c) p = QOk q p' ->
  let f' := fst (__fetchData c p f (Response hs (Some v))) in
  wp_data f' = v
  /\ (forall n, get_prop "x-wp-total" hs = Some (string_of_Z n) -> total f' = Some n)
  /\ (get_prop "x-wp-total" hs = None -> total f' = None)
  /\ (forall n, get_prop "x-wp-totalpages" hs = Some (string_of_Z n) -> total_pages f' = Some n)
  /\ (get_prop "x-wp-totalpages" hs = None -> total_pages f' = None).
Proof.
  intros Hq f'.
  assert (E : total f' = header_int hs "x-wp-total" /\ total_pages f' = header_int hs "x-wp-totalpages"
              /\ wp_data f' = v).
  { subst f'. unfold __fetchData, constructURL. cbv zeta. rewrite Hq. simpl.
    repeat split. }
  destruct E as (E1 & E2 & E3). rewrite E1, E2.
  destruct (header_int_decimal hs "x-wp-total") as [A1 A2].
  destruct (header_int_decimal hs "x-wp-totalpages") as [B1 B2].
  auto.
Qed.

Lemma fetchData_pagination_witness :
  let f' := fst (__fetchData example_config (initialParams example_config)
                   (mkFetch JNull None None None false true)
                   (Response [("x-wp-total", "1234")] (Some (JArr [])))) in
  wp_data f' = JArr [] /\ total f' = Some 1234%Z /\ total_pages f' = None.
Proof.
  intros f'.
  destruct (fetchData_pagination example_config (initialParams example_config)
              (mkFetch JNull None None None false true) [("x-wp-total", "1234")] (JArr [])
              _ _ eq_refl)
    as (H1 & H2 & _ & _ & H5).
  split; [exact H1|]. split; [apply (H2 1234%Z); reflexivity | apply H5; reflexivity].
Defined.

(** ** The request [constructURL] builds *)

Lemma get_map_snd {A B : Type} (f : A -> B) (k : string) (l : list (string * A)) :
  get_prop k (map (fun kv => (fst kv, f (snd kv))) l) = option_map f (get_prop k l).
Proof.
  induction l as [|[k' v] l IH]; simpl; [reflexivity|].
  destruct (String.eqb k k'); [reflexivity | exact IH].
Qed.

Lemma apply_meta_query_other (p p' : list (string * json)) (q0 q : list (string * val)) (k : string) :
  k <> "meta_query" -> apply_meta_query p q0 = QOk q p' -> get_prop k q = get_prop k q0.
Proof.
  intros Hk. unfold apply_meta_query.
  destruct (get_prop "meta_query" q0) as [v|]; [|discriminate].
  destruct v as [[| | | s | vs | o]| kk |]; try discriminate;
    try (intros H; inversion H; subst; reflexivity).
  - destruct (String.eqb s ""); intros H; inversion H; subst; reflexivity.
  - destruct (0 <? length o)%nat; intros H; inversion H; subst; [|reflexivity].
    now apply get_set_other.
  - destruct (get_prop kk p) as [[| | | | | o]|]; try discriminate;
      try (intros H; inversion H; subst; reflexivity).
    destruct (0 <? length o)%nat; intros H; inversion H; subst; reflexivity.
Qed.

(** The request [constructURL] builds starts with [context=embed] and
    [_embed=1]; a nonzero integer [pagenum] is sent as [page], and every
    property of [params] other than [pagenum], [page], [orderby],
    [meta_key] and [meta_query] is sent under its own name as
    [String(value)]. *)
Theorem constructURL_search (c : config) (p p' : list (string * json)) (r : request) :
  constructURL c p = (inl r, p') ->
  exists rest,
    request_search r = ("context", "embed") :: ("_embed", "1") :: rest
    /\ (forall n, get_prop "pagenum" p = Some (JNum n) -> n <> 0%Z ->
          get_prop "page" rest = Some (string_of_Z n))
    /\ (forall k v, ~ In k ["pagenum"; "page"; "orderby"; "meta_key"; "meta_query"] ->
          get_prop k p = Some v -> get_prop k rest = Some (js_to_string v)).
Proof.
  unfold constructURL. destruct (query_params (meta_fields c) p) as [q p1|e] eqn:Eq; [|discriminate].
  intros H. inversion H; subst; clear H.
  pose proof (query_params_effect _ _ q p' Eq) as Heff.
  rewrite query_params_unfold in Eq.
  destruct (apply_orderby _ _ _) as [q0|] eqn:Eo; [|discriminate].
  eexists. split; [reflexivity|]. split.
  - intros n Hn Hnz. rewrite get_map_snd.
    rewrite (apply_meta_query_other p p' q0 q "page" ltac:(discriminate) Eq).
    rewrite (apply_orderby_other _ _ _ _ "page" ltac:(discriminate) ltac:(discriminate) Eo).
    unfold translate_pagenum. rewrite get_extend_copy, Hn. simpl.
    destruct n as [|n|n]; [congruence| |]; simpl;
      rewrite get_delete_other by discriminate; rewrite get_set_same by discriminate; reflexivity.
  - intros k v Hk Hv.
    assert (N1 : k <> "pagenum") by (intros ->; apply Hk; simpl; tauto).
    assert (N2 : k <> "page") by (intros ->; apply Hk; simpl; tauto).
    assert (N3 : k <> "orderby") by (intros ->; apply Hk; simpl; tauto).
    assert (N4 : k <> "meta_key") by (intros ->; apply Hk; simpl; tauto).
    assert (N5 : k <> "meta_query") by (intros ->; apply Hk; simpl; tauto).
    rewrite get_map_snd, (apply_meta_query_other p p' q0 q k N5 Eq),
      (apply_orderby_other _ _ _ _ k N3 N4 Eo), get_translate_other, get_extend_copy, Hv
      by assumption.
    assert (Hp' : get_prop k p' = get_prop k p).
    { destruct Heff as [->|(mq & _ & ->)]; [reflexivity|]. now apply get_define_other. }
    destruct v; simpl; try reflexivity; rewrite Hp', Hv; reflexivity.
Qed.

Lemma constructURL_search_witness :
  let p := define_prop "pagenum" (JNum 3) (initialParams example_config) in
  let r := match fst (constructURL example_config p) with inl r => r | inr _ => mkRequest "" [] end in
  exists rest,
    request_search r = ("context", "embed") :: ("_embed", "1") :: rest
    /\ get_prop "page" rest = Some "3" /\ get_prop "per_page" rest = Some "10".
Proof.
  intros p r.
  destruct (constructURL_search example_config p (snd (constructURL example_config p)) r
              ltac:(vm_compute; reflexivity)) as (rest & E & H1 & H2).
  exists rest. split; [exact E|]. split.
  - apply (H1 3%Z); [reflexivity | discriminate].
  - apply (H2 "per_page" (JNum 10)); [simpl; intuition discriminate | reflexivity].
Defined.

(** ** The watcher settles *)

Lemma relation_changed_refl (p : list (string * json)) : relation_changed p p = false.
Proof.
  unfold relation_changed. destruct (get_prop "meta_query" p) as [[]|]; try reflexivity.
  destruct (get_prop "relation" kvs) as [a|]; [|reflexivity].
  now destruct (strict_eq a (JStr "AND")).
Qed.

Lemma query_ok_settled (mf p : list (string * json)) q p' :
  query_params mf p = QOk q p' -> relation_settled p' = true.
Proof.
  intros E. pose proof (query_params_effect _ _ q p' E) as Heff.
  destruct (get_prop "meta_query" p) as [v|] eqn:Hm.
  - destruct v as [| | | | | mq].
    1-5: destruct Heff as [->|(mq & Hmq & _)]; [unfold relation_settled; now rewrite Hm | congruence].
    rewrite query_params_unfold in E.
    destruct (apply_orderby _ _ _) as [q0|] eqn:Eo; [|discriminate].
    rewrite (apply_meta_query_obj _ _ mq _ Eo Hm) in E. inversion E; subst.
    unfold relation_settled. destruct (0 <? length mq)%nat eqn:L.
    + rewrite get_define_same, get_set_same by discriminate. reflexivity.
    + rewrite Hm. destruct mq; [reflexivity | discriminate].
  - destruct Heff as [->|(mq & Hmq & _)]; [unfold relation_settled; now rewrite Hm | congruence].
Qed.

Lemma apply_orderby_none (mf : list (string * json)) (ob : option json) (q q' : list (string * val)) :
  apply_orderby mf ob q = None -> apply_orderby mf ob q' = None.
Proof.
  unfold apply_orderby.
  destruct (mf_is_number _); [discriminate|]. destruct (mf_truthy _); [discriminate|].
  destruct (not_valid_orderby ob); [reflexivity | discriminate].
Qed.

Lemma apply_meta_query_throws (p p' : list (string * json)) (q q' : list (string * val)) e :
  get_prop "meta_query" q = get_prop "meta_query" q' ->
  apply_meta_query p q = QThrow e -> exists e', apply_meta_query p' q' = QThrow e'.
Proof.
  unfold apply_meta_query. intros Hq. rewrite <- Hq.
  destruct (get_prop "meta_query" q) as [[[| | | s | vs | o]| k |]|]; try discriminate;
    try (intros _; eexists; reflexivity).
  - destruct (String.eqb s ""); [discriminate|]. intros _. eexists; reflexivity.
  - destruct (0 <? length o)%nat; discriminate.
  - destruct (get_prop k p) as [[| | | | | o]|]; try discriminate.
    destruct (0 <? length o)%nat; discriminate.
Qed.

(** Whether [query_params] throws depends only on [orderby] and
    [meta_query]. *)
Lemma query_throws_ext (mf p p' : list (string * json)) e :
  get_prop "orderby" p = get_prop "orderby" p' ->
  get_prop "meta_query" p = get_prop "meta_query" p' ->
  query_params mf p = QThrow e -> exists e', query_params mf p' = QThrow e'.
Proof.
  intros Ho Hm. rewrite !query_params_unfold. rewrite <- Ho.
  destruct (apply_orderby mf (get_prop "orderby" p) (translate_pagenum (extend_copy p))) as [q|] eqn:E.
  - destruct (apply_orderby mf (get_prop "orderby" p) (translate_pagenum (extend_copy p'))) as [q'|] eqn:E';
      [|intros _; eexists; reflexivity].
    apply apply_meta_query_throws.
    rewrite (query_meta_query _ _ _ E). rewrite Ho in E'. rewrite (query_meta_query _ _ _ E').
    now rewrite Hm.
  - intros _. rewrite (apply_orderby_none _ _ _ (translate_pagenum (extend_copy p')) E).
    eexists; reflexivity.
Qed.

Lemma quiet_no_change (c : config) (p : list (string * json)) :
  relation_settled p = true \/ (exists e, query_params (meta_fields c) p = QThrow e) ->
  relation_changed p (params_after_query c p) = false.
Proof.
  intros [H|(e & H)]; [now apply relation_unchanged|].
  unfold params_after_query. rewrite H. apply relation_changed_refl.
Qed.

Lemma handler_quiet (c : config) (s : rstate) :
  let p := params (fst (handler c s)) in
  relation_settled p = true \/ (exists e, query_params (meta_fields c) p = QThrow e).
Proof.
  unfold handler.
  destruct (if page_updated s then (s, false) else vue_assign "pagenum" (JNum 1) s) as [s1 t1].
  simpl. unfold params_after_query.
  destruct (query_params (meta_fields c) (params s1)) as [q p'|e] eqn:E.
  - left. exact (query_ok_settled _ _ _ _ E).
  - right. exists e. simpl. exact E.
Qed.

Lemma quiet_pagenum (c : config) (s : rstate) :
  relation_settled (params s) = true \/ (exists e, query_params (meta_fields c) (params s) = QThrow e) ->
  let p := params (fst (vue_assign "pagenum" (JNum 1) s)) in
  relation_settled p = true \/ (exists e, query_params (meta_fields c) p = QThrow e).
Proof.
  intros H p.
  assert (Hm : get_prop "meta_query" (params s) = get_prop "meta_query" p)
    by (symmetry; apply vue_assign_other; discriminate).
  assert (Ho : get_prop "orderby" (params s) = get_prop "orderby" p)
    by (symmetry; apply vue_assign_other; discriminate).
  destruct H as [H|(e & H)].
  - left. rewrite <- (relation_settled_ext _ _ Hm). exact H.
  - right. exact (query_throws_ext _ _ _ e Ho Hm H).
Qed.

Lemma handler_trig (c : config) (s : rstate) :
  relation_settled (params s) = true \/ (exists e, query_params (meta_fields c) (params s) = QThrow e) ->
  snd (handler c s) = if page_updated s then false else snd (vue_assign "pagenum" (JNum 1) s).
Proof.
  intros H. unfold handler. destruct (page_updated s).
  - simpl. now apply quiet_no_change.
  - pose proof (quiet_pagenum c s H) as H'. cbv zeta in H'.
    destruct (vue_assign "pagenum" (JNum 1) s) as [s1 t1]. simpl in *.
    rewrite (quiet_no_change c _ H'). apply orb_false_r.
Qed.

(** However [params] changed, the watcher's reactions to one change end
    after at most three runs of the handler: the first run's query settles
    [meta_query.relation], the second at most resets [pagenum] to 1, and
    the third changes nothing the watcher sees.  Vue's circular-update
    limit is never reached. *)
Theorem watcher_settles (c : config) (armed : bool) (s : rstate) (t : bool) :
  (length (snd (reactions reaction_limit c armed s t)) <= 3)%nat.
Proof.
  unfold reaction_limit. change 101%nat with (S (S (S 98))). destruct t; [|rewrite reactions_idle; cbn [snd length]; lia].
  rewrite reactions_head. cbn [snd length].
  set (s1 := fst (handler c s)).
  destruct (snd (handler c s)) eqn:T1; [|rewrite reactions_idle; cbn [snd length]; lia].
  rewrite reactions_head. cbn [snd length].
  set (s2 := fst (handler c s1)).
  destruct (snd (handler c s1)) eqn:T2; [|rewrite reactions_idle; cbn [snd length]; lia].
  rewrite reactions_head. cbn [snd length].
  assert (Q2 := handler_quiet c s1). cbv zeta in Q2. fold s2 in Q2.
  assert (P2 : page_updated s2 = false) by apply (proj1 (proj2 (handler_facts c s1))).
  assert (P1 : page_updated s1 = false) by apply (proj1 (proj2 (handler_facts c s))).
  assert (N2 : get_prop "pagenum" (params s2) = Some (JNum 1)) by (apply handler_resets_page; exact P1).
  rewrite (handler_trig c s2 Q2), P2.
  unfold vue_assign. rewrite N2. cbn [snd strict_eq]. rewrite Z.eqb_refl, andb_false_r, reactions_idle. cbn [snd length]. lia.
Qed.

(** ** The mount *)

(** Mounted without a query string, and with an initial [meta_query] whose
    [relation] is absent or ['AND'], the component runs the watcher once,
    pushes no history entry, and keeps every parameter of [reset()] except
    the [relation] the query writes into [meta_query]; afterwards history
    is recorded and a change resets the page. *)
Theorem mount_settles (c : config) :
  relation_settled (reset_params c) = true ->
  let '(st, log) := run c "" [] in
  let s := fst st in
  length log = 1%nat /\ history s = [] /\ suppress_history s = false /\ page_updated s = false
  /\ listening s = true
  /\ params s = params_after_query c (reset_params c)
  /\ (forall k, k <> "meta_query" -> get_prop k (params s) = get_prop k (reset_params c)).
Proof.
  intros Hs. unfold run, created. rewrite String.eqb_refl.
  assert (H : handler c (mkState (reset_params c) [] true true true
                           (history (set_suppress true (set_page_updated true initial_state))))
              = (mkState (params_after_query c (reset_params c)) [] false false true [], false)).
  { unfold handler. cbn -[params_after_query relation_changed reset_params].
    rewrite (relation_unchanged c _ Hs). reflexivity. }
  unfold reaction_limit. change 101%nat with (S 100). rewrite reactions_head, H.
  cbn [fst snd]. rewrite reactions_idle.
  cbn [run_events fst snd app length history suppress_history page_updated listening params].
  repeat split. intros k Hk. now apply params_after_query_other.
Qed.

Lemma mount_settles_witness :
  relation_settled (reset_params example_config) = true
  /\ let '(st, log) := run example_config "" [] in
     let s := fst st in
     length log = 1%nat /\ history s = [] /\ suppress_history s = false /\ page_updated s = false
     /\ listening s = true
     /\ params s = params_after_query example_config (reset_params example_config)
     /\ (forall k, k <> "meta_query" -> get_prop k (params s) = get_prop k (reset_params example_config)).
Proof. split; [vm_compute; reflexivity | apply mount_settles; vm_compute; reflexivity]. Defined.

Lemma relation_changes (c : config) (p : list (string * json)) q p' :
  relation_settled p = false -> query_params (meta_fields c) p = QOk q p' ->
  relation_changed p (params_after_query c p) = true.
Proof.
  intros Hs E. unfold params_after_query. rewrite E.
  unfold relation_settled in Hs.
  destruct (get_prop "meta_query" p) as [v|] eqn:Hm; [|discriminate].
  destruct v as [| | | | | mq]; try discriminate.
  destruct (get_prop "relation" mq) as [a|] eqn:Hr; [|discriminate].
  rewrite query_params_unfold in E.
  destruct (apply_orderby _ _ _) as [q0|] eqn:Eo; [|discriminate].
  rewrite (apply_meta_query_obj _ _ mq _ Eo Hm) in E.
  assert (L : (0 <? length mq)%nat = true).
  { destruct mq; [discriminate | reflexivity]. }
  rewrite L in E. inversion E; subst.
  unfold relation_changed. rewrite Hm, get_define_same, Hr, get_set_same by discriminate.
  simpl. now rewrite Hs.
Qed.

Lemma reactions_history_grows (fuel : nat) (c : config) (armed : bool) (s : rstate) (t : bool) :
  exists h, history (fst (reactions fuel c armed s t)) = app (history s) h.
Proof.
  revert armed s t. induction fuel as [|f IH]; intros armed s t.
  - exists []. simpl. now rewrite app_nil_r.
  - destruct t; [|exists []; rewrite reactions_idle; simpl; now rewrite app_nil_r].
    rewrite reactions_head. cbn [fst].
    destruct (IH false (fst (handler c s)) (snd (handler c s))) as [h H]. rewrite H.
    destruct (handler_facts c s) as (_ & _ & _ & Hh). rewrite Hh.
    destruct (suppress_history s); [now exists h|].
    destruct (listening s); [|now exists h].
    eexists. now rewrite <- app_assoc.
Qed.

(** Mounted without a query string but with an initial [meta_query] whose
    [relation] is neither absent nor ['AND'], the query's write to
    [relation] notifies the watcher again, and that second run already
    records a history entry: loading the page pushes a history state. *)
Theorem mount_unsettled_pushes (c : config) q p' :
  relation_settled (reset_params c) = false ->
  query_params (meta_fields c) (reset_params c) = QOk q p' ->
  history (fst (fst (run c "" []))) <> [].
Proof.
  intros Hs E. unfold run, created. rewrite String.eqb_refl.
  set (s0 := mkState (reset_params c) [] true true true
               (history (set_suppress true (set_page_updated true initial_state)))).
  set (s1 := mkState (params_after_query c (reset_params c)) [] false false true []).
  assert (H : handler c s0 = (s1, true)).
  { unfold handler, s0, s1. cbn -[params_after_query relation_changed reset_params].
    rewrite (relation_changes c _ q p' Hs E). reflexivity. }
  unfold reaction_limit. change 101%nat with (S (S 99)). rewrite reactions_head, H.
  cbn [fst snd]. rewrite reactions_head. cbn [fst snd run_events].
  destruct (reactions_history_grows 99 c false (fst (handler c s1)) (snd (handler c s1))) as [h Hh].
  rewrite Hh. destruct (handler_facts c s1) as (_ & _ & _ & H1). rewrite H1.
  cbn [suppress_history history s1]. simpl. discriminate.
Qed.

Lemma mount_unsettled_pushes_witness :
  let c := mkConfig 1 "posts" 10 [] 1 "" "desc" "date" []
             [("relation", JStr "OR"); ("price", JObj [("key", JStr "price")])]
             "https://example.org" "/" true in
  history (fst (fst (run c "" []))) <> [].
Proof.
  intros c. eapply (mount_unsettled_pushes c); [vm_compute; reflexivity | vm_compute; reflexivity].
Defined.

(** ** Reloading from the query string *)

Lemma merge_object_cons (o : list (string * json)) (k : string) (s : json) (r : list (string * json)) :
  merge_object o ((k, s) :: r)
  = merge_object (define_prop k (merge_value (if String.eqb k "__proto__" then None else get_prop k o) s) o) r.
Proof. reflexivity. Qed.

Lemma merge_value_obj (obj : option json) (m : list (string * json)) :
  merge_value obj (JObj m) = JObj (merge_object (match obj with Some (JObj os) => os | _ => [] end) m).
Proof. destruct obj as [[]|]; reflexivity. Qed.

Lemma merge_value_prim (obj : option json) (v : json) :
  (forall vs, v <> JArr vs) -> (forall m, v <> JObj m) -> merge_value obj v = v.
Proof. intros H1 H2. destruct v; try reflexivity; [now destruct (H1 vs) | now destruct (H2 kvs)]. Qed.

Lemma merge_object_absent (o src : list (string * json)) (k : string) :
  ~ In k (map fst src) -> get_prop k (merge_object o src) = get_prop k o.
Proof.
  revert o. induction src as [|[k' s] r IH]; intros o Hk; [reflexivity|].
  rewrite merge_object_cons, IH by (intros H; apply Hk; now right).
  apply get_define_other. intros ->. apply Hk. now left.
Qed.

Lemma existsb_in_keys (k : string) (l : list string) : In k l -> existsb (String.eqb k) l = true.
Proof. intros H. apply existsb_exists. exists k. split; [exact H | apply String.eqb_refl]. Qed.

Lemma merge_object_present (o src : list (string * json)) (k : string) (v : json) :
  keys_distinct (map fst src) = true -> In (k, v) src -> k <> "__proto__" ->
  get_prop k (merge_object o src) = Some (merge_value (get_prop k o) v).
Proof.
  revert o. induction src as [|[k' s] r IH]; intros o Hd Hin Hp; [destruct Hin|].
  simpl in Hd. apply andb_prop in Hd as [Hn Hd]. apply negb_true_iff in Hn.
  rewrite merge_object_cons. destruct Hin as [E|Hin].
  - inversion E; subst. apply String.eqb_neq in Hp. rewrite Hp.
    rewrite merge_object_absent.
    + apply get_define_same.
    + intros H. apply existsb_in_keys in H. congruence.
  - assert (Hne : k <> k').
    { intros ->. apply (in_map fst) in Hin. simpl in Hin. apply existsb_in_keys in Hin. congruence. }
    rewrite IH by assumption. now rewrite get_define_other by exact Hne.
Qed.

(** Reloading a URL the watcher pushed ([created] with
    [location.search = '?' + serializeParams(p)]).  The module calls
    [_.merge] without importing lodash.  When the page provides a global
    [_] with lodash's [merge], the reload restores every primitive
    parameter of [p]; an object parameter is merged into the initial one,
    so an initial key it lacks (a meta filter removed before the reload,
    say) comes back; a parameter missing from [p] gets its initial value.
    Without that global, [_.merge] throws a ReferenceError: [params] stays
    [{}] and no history listener is installed.  [p] is a non-empty mapping
    with distinct keys, none ["__proto__"], of truthy well-formed values. *)
Theorem reload_params (c : config) (p : list (string * json)) :
  p <> [] -> keys_distinct (map fst p) = true ->
  forallb (fun kv => truthy (snd kv) && negb (String.eqb (fst kv) "__proto__")
                     && json_wf (snd kv)) p = true ->
  let s := fst (created c ("?" ++ serializeParams p) initial_state) in
  (global_merge c = true ->
  (forall k v, In (k, v) p -> (forall vs, v <> JArr vs) -> (forall m, v <> JObj m) ->
     get_prop k (params s) = Some v)
  /\ (forall k m, In (k, JObj m) p ->
        exists m', get_prop k (params s) = Some (JObj m')
          /\ forall j, ~ In j (map fst m) ->
               get_prop j m' = match get_prop k (initialParams c) with
                               | Some (JObj m0) => get_prop j m0 | _ => None end)
  /\ (forall k, ~ In k (map fst p) -> get_prop k (params s) = get_prop k (initialParams c)))
  /\ (global_merge c = false -> params s = [] /\ listening s = false).
Proof.
  intros Hne Hd Hall s.
  split; [intros Hg|intros Hg; subst s; unfold created;
    replace (String.eqb ("?" ++ serializeParams p) "") with false by reflexivity; rewrite Hg;
    split; reflexivity].
  assert (Hs : params s = merge_object (initialParams c) p).
  { subst s. unfold created.
    replace (String.eqb ("?" ++ serializeParams p) "") with false by reflexivity. rewrite Hg.
    rewrite unserialize_serialize_params by assumption. reflexivity. }
  assert (Hp : forall k v, In (k, v) p -> k <> "__proto__").
  { intros k v Hin E. rewrite forallb_forall in Hall. specialize (Hall _ Hin). simpl in Hall.
    subst k. rewrite andb_false_r in Hall. simpl in Hall. discriminate. }
  rewrite Hs. split; [|split].
  - intros k v Hin H1 H2. rewrite (merge_object_present _ _ k v Hd Hin (Hp k v Hin)).
    now rewrite merge_value_prim.
  - intros k m Hin. rewrite (merge_object_present _ _ k (JObj m) Hd Hin (Hp _ _ Hin)).
    rewrite merge_value_obj. eexists. split; [reflexivity|].
    intros j Hj. rewrite merge_object_absent by exact Hj.
    destruct (get_prop k (initialParams c)) as [[]|]; reflexivity.
  - intros k Hk. now apply merge_object_absent.
Qed.

Lemma reload_params_witness :
  let p := [("search", JStr "cats"); ("pagenum", JNum 3); ("meta_query", JObj [])] in
  let s := fst (created example_config ("?" ++ serializeParams p) initial_state) in
  get_prop "search" (params s) = Some (JStr "cats") /\ get_prop "per_page" (params s) = Some (JNum 10).
Proof.
  intros p s.
  destruct (reload_params example_config p ltac:(discriminate)
              ltac:(vm_compute; reflexivity) ltac:(vm_compute; reflexivity)) as [Hm _].
  destruct (Hm eq_refl) as (H1 & _ & H3).
  split.
  - apply H1; [simpl; tauto | discriminate | discriminate].
  - apply H3. simpl. intuition discriminate.
Defined.

(** ** Taxonomies missing from [params] *)

Lemma vue_assign_plain (k k' : string) (v : json) (s : rstate) :
  is_plain k s = true -> is_plain k (fst (vue_assign k' v s)) = true.
Proof.
  intros H. unfold vue_assign. destruct (get_prop k' (params s)); [exact H|].
  destruct (String.eqb k' "__proto__"); [exact H|].
  unfold is_plain in *. simpl. now rewrite H, orb_true_r.
Qed.

Lemma vue_assign_plain_silent (k : string) (v : json) (s : rstate) :
  is_plain k s = true -> snd (vue_assign k v s) = false.
Proof.
  intros H. unfold vue_assign. destruct (get_prop k (params s)); [simpl; now rewrite H|].
  now destruct (String.eqb k "__proto__").
Qed.

Lemma handler_plain (c : config) (k : string) (s : rstate) :
  is_plain k s = true -> is_plain k (fst (handler c s)) = true.
Proof.
  intros H. unfold handler.
  destruct (if page_updated s then (s, false) else vue_assign "pagenum" (JNum 1) s) as [s1 t1] eqn:E.
  simpl. change (is_plain k s1 = true).
  destruct (page_updated s); [inversion E; subst; exact H|].
  replace s1 with (fst (vue_assign "pagenum" (JNum 1) s)) by (rewrite E; reflexivity).
  now apply vue_assign_plain.
Qed.

Lemma setOrder_plain (k : string) (o : json) (s s' : rstate) (t : bool) :
  setOrder o s = Some (s', t) -> is_plain k s = true -> is_plain k s' = true.
Proof.
  unfold setOrder. destruct (_ || _); [|discriminate].
  intros H. apply some_pair_fst in H. subst. apply vue_assign_plain.
Qed.

Lemma toggleOrder_plain (k : string) (s s' : rstate) (t : bool) :
  toggleOrder s = Some (s', t) -> is_plain k s = true -> is_plain k s' = true.
Proof.
  unfold toggleOrder. destruct (get_prop "order" (params s)) as [o|];
    [destruct (strict_eq o (JStr "asc"))|]; apply setOrder_plain.
Qed.

Lemma call_plain (c : config) (k : string) (m : method) (s s' : rstate) (t : bool) :
  m <> Reset -> is_plain k s = true -> call c m s = Some (s', t) -> is_plain k s' = true.
Proof.
  intros Hm H E. destruct m; simpl in E.
  - apply some_pair_fst in E. subst. now apply vue_assign_plain.
  - apply some_pair_fst in E. subst. now apply vue_assign_plain.
  - apply some_pair_fst in E. subst. now apply vue_assign_plain.
  - destruct (addTerms _ _ _) as [[? ?]|]; inversion E. exact H.
  - destruct (removeTerms _ _ _) as [[? ?]|]; inversion E. exact H.
  - destruct (terms_array _); [|discriminate].
    apply some_pair_fst in E. subst. now apply vue_assign_plain.
  - eapply setOrder_plain; eassumption.
  - apply some_pair_fst in E. subst. now apply vue_assign_plain.
  - unfold selectOrderBy in E.
    match type of E with
    | match ?x with _ => _ end = _ => destruct x as [[s1 t1]|] eqn:E1; [|discriminate]
    end.
    destruct (vue_assign "orderby" _ s1) as [s2 t2] eqn:E2. inversion E. subst.
    assert (H1 : is_plain k s1 = true).
    { destruct (get_prop "orderby" (params s)) as [o|];
        [destruct (strict_eq o _); [eapply toggleOrder_plain | eapply setOrder_plain]
        | eapply setOrder_plain]; eassumption. }
    replace s' with (fst (vue_assign "orderby" orderby s1)) by now rewrite E2.
    now apply vue_assign_plain.
  - eapply toggleOrder_plain; eassumption.
  - destruct (get_prop "meta_query" (params s)) as [[]|]; inversion E. exact H.
  - destruct (get_prop "meta_query" (params s)) as [[]|]; inversion E; subst; try exact H.
    destruct (get_prop field _); inversion E; subst; exact H.
  - discriminate.
  - contradiction.
Qed.

Lemma reactions_plain (f : nat) (c : config) (k : string) (armed : bool) (s : rstate) (t : bool) :
  is_plain k s = true -> is_plain k (fst (reactions f c armed s t)) = true.
Proof.
  revert armed s t. induction f as [|f IH]; intros armed s t H; [exact H|].
  destruct t; [|now rewrite reactions_idle].
  rewrite reactions_head. apply IH. now apply handler_plain.
Qed.

Lemma run_events_plain (c : config) (k : string) (evs : list event) (s : rstate) (armed : bool) :
  Forall (fun e => match e with Call Reset | Pop _ => False | _ => True end) evs ->
  is_plain k s = true -> is_plain k (fst (fst (run_events c evs (s, armed)))) = true.
Proof.
  revert s armed. induction evs as [|e evs IH]; intros s armed He H; [exact H|].
  inversion He as [|? ? He1 He2]; subst. cbn [run_events].
  assert (H1 : is_plain k (fst (fst (step c e (s, armed)))) = true).
  { destruct e as [m|]; [|contradiction]. unfold step.
    destruct (call c m s) as [[s' t]|] eqn:E; [|exact H].
    assert (Hs' : is_plain k s' = true).
    { apply (call_plain c k m s s' t); [intros ->; contradiction | exact H | exact E]. }
    pose proof (reactions_plain reaction_limit c k armed s' t Hs') as Hr.
    destruct (reactions reaction_limit c armed s' t). exact Hr. }
  destruct (step c e (s, armed)) as [[s1 a1] log1].
  specialize (IH s1 a1 He2 H1).
  destruct (run_events c evs (s1, a1)). exact IH.
Qed.

(** [setTerms] on a taxonomy that [params] does not have creates it by
    plain assignment, which Vue does not make reactive: the call notifies
    no watcher.  While the taxonomy is plain, no [setTerms], [addTerms],
    [removeTerms] or [resetTerms] on it notifies a watcher; it stays plain
    through every method call other than [reset] and every run of the
    watcher, hence through any sequence of such calls and the reactions
    they cause.  [reset] and a history restoration assign a whole new
    [params], whose properties are all reactive: they end this. *)
Theorem plain_taxonomy_silent (c : config) (k : string) (terms : json) (ts : list json) (s : rstate) :
  get_prop k (params s) = None -> k <> "__proto__" -> terms_array terms = Some ts ->
  (exists s1, call c (SetTerms k terms) s = Some (s1, false)
              /\ get_prop k (params s1) = Some (JArr ts) /\ is_plain k s1 = true)
  /\ (forall m s' s'' t,
        match m with
        | SetTerms k' _ | AddTerms k' _ | RemoveTerms k' _ | ResetTerms k' => k' = k
        | _ => False
        end ->
        is_plain k s' = true -> call c m s' = Some (s'', t) -> t = false /\ is_plain k s'' = true)
  /\ (forall s', is_plain k s' = true -> is_plain k (fst (handler c s')) = true)
  /\ (forall evs s' armed,
        Forall (fun e => match e with Call Reset | Pop _ => False | _ => True end) evs ->
        is_plain k s' = true -> is_plain k (fst (fst (run_events c evs (s', armed)))) = true)
  /\ (forall s' s'' t, call c Reset s' = Some (s'', t) -> is_plain k s'' = false)
  /\ (forall st s', is_plain k (pop_listener c st s') = false).
Proof.
  intros Hk Hp Ht. split; [|split; [|split; [|split; [|split]]]].
  - simpl. rewrite Ht. unfold vue_assign. rewrite Hk.
    apply String.eqb_neq in Hp. rewrite Hp. eexists. split; [reflexivity|]. split.
    + apply get_define_same.
    + unfold is_plain. simpl. now rewrite String.eqb_refl.
  - intros m s' s'' t Hm Hpl E.
    destruct m as [| |tx|tx tm|tx tm|tx tm| | | | | | | |]; try contradiction; subst tx; simpl in E.
    + injection E as H1. split.
      * replace t with (snd (vue_assign k (JArr []) s')) by (rewrite H1; reflexivity).
        now apply vue_assign_plain_silent.
      * replace s'' with (fst (vue_assign k (JArr []) s')) by (rewrite H1; reflexivity).
        now apply vue_assign_plain.
    + destruct (addTerms k tm (params s')) as [[p' b]|]; [|discriminate].
      inversion E; subst. rewrite Hpl, andb_false_r. split; [reflexivity | exact Hpl].
    + destruct (removeTerms k tm (params s')) as [[p' b]|]; [|discriminate].
      inversion E; subst. rewrite Hpl, andb_false_r. split; [reflexivity | exact Hpl].
    + destruct (terms_array tm) as [l|]; [|discriminate]. injection E as H1. split.
      * replace t with (snd (vue_assign k (JArr l) s')) by (rewrite H1; reflexivity).
        now apply vue_assign_plain_silent.
      * replace s'' with (fst (vue_assign k (JArr l) s')) by (rewrite H1; reflexivity).
        now apply vue_assign_plain.
  - intros s'. apply handler_plain.
  - intros evs s' armed. apply run_events_plain.
  - intros s' s'' t E. simpl in E. now injection E as <- _.
  - intros [st|] s'; reflexivity.
Qed.

Lemma plain_taxonomy_silent_witness :
  let s := fst (fst (run example_config "" [])) in
  exists s1, call example_config (SetTerms "genre" (JNum 4)) s = Some (s1, false)
             /\ get_prop "genre" (params s1) = Some (JArr [JNum 4]) /\ is_plain "genre" s1 = true.
Proof.
  intros s.
  exact (proj1 (plain_taxonomy_silent example_config "genre" (JNum 4) [JNum 4] s
                  ltac:(vm_compute; reflexivity) ltac:(discriminate) eq_refl)).
Defined.

(** ** Navigating back to an entry without a state *)

Lemma handler_other_keys (c : config) (s : rstate) (k : string) :
  k <> "pagenum" -> k <> "meta_query" ->
  get_prop k (params (fst (handler c s))) = get_prop k (params s).
Proof.
  intros H1 H2. unfold handler.
  destruct (if page_updated s then (s, false) else vue_assign "pagenum" (JNum 1) s) as [s1 t1] eqn:E.
  simpl. rewrite params_after_query_other by exact H2.
  destruct (page_updated s); [now inversion E|].
  replace s1 with (fst (vue_assign "pagenum" (JNum 1) s)) by now rewrite E.
  now apply vue_assign_other.
Qed.

Lemma reactions_other_keys (fuel : nat) (c : config) (armed : bool) (s : rstate) (t : bool) (k : string) :
  k <> "pagenum" -> k <> "meta_query" ->
  get_prop k (params (fst (reactions fuel c armed s t))) = get_prop k (params s).
Proof.
  intros H1 H2. revert armed s t. induction fuel as [|f IH]; intros armed s t; [reflexivity|].
  destruct t; [|now rewrite reactions_idle].
  rewrite reactions_head. cbn [fst]. rewrite IH. now apply handler_other_keys.
Qed.

(** A [POP] to an entry without a state (the entry of the first load),
    while the history listener is installed, no page selection is pending
    and the initial [meta_query] has no [relation] or the relation ['AND']
    (so the query's write of [relation] notifies nothing), gives every
    parameter other than [pagenum] and [meta_query] its [reset()] value,
    and [pagenum] the value 1, set by the reaction.  When [reset()] has a
    [pagenum] other than 1 that change notifies the watcher again, and the
    second reaction pushes a new history entry; otherwise the history is
    left as it was. *)
Theorem pop_without_state (c : config) (s : rstate) (armed : bool) (n : Z) :
  listening s = true -> page_updated s = false ->
  relation_settled (reset_params c) = true ->
  get_prop "pagenum" (reset_params c) = Some (JNum n) ->
  let s' := fst (fst (step c (Pop None) (s, armed))) in
  get_prop "pagenum" (params s') = Some (JNum 1)
  /\ (forall k, k <> "pagenum" -> k <> "meta_query" -> get_prop k (params s') = get_prop k (reset_params c))
  /\ length (history s') = (length (history s) + if (n =? 1)%Z then 0 else 1)%nat.
Proof.
  intros Hl Hp Hs Hn s'.
  assert (Hstep : s' = fst (reactions reaction_limit c true (pop_listener c None s) true)).
  { subst s'. unfold step. rewrite Hl.
    destruct (reactions reaction_limit c true (pop_listener c None s) true). reflexivity. }
  rewrite Hstep. clear s' Hstep.
  set (s0 := pop_listener c None s).
  assert (P0 : page_updated s0 = false) by exact Hp.
  assert (Q0 : relation_settled (params s0) = true
               \/ (exists e, query_params (meta_fields c) (params s0) = QThrow e)) by (left; exact Hs).
  assert (T0 : snd (handler c s0) = negb (n =? 1)%Z).
  { rewrite (handler_trig c s0 Q0), P0. unfold vue_assign. change (params s0) with (reset_params c).
    rewrite Hn. reflexivity. }
  set (s1 := fst (handler c s0)).
  assert (P1 : page_updated s1 = false) by apply (proj1 (proj2 (handler_facts c s0))).
  assert (N1 : get_prop "pagenum" (params s1) = Some (JNum 1)) by (apply handler_resets_page; exact P0).
  assert (H1 : history s1 = history s).
  { destruct (handler_facts c s0) as (_ & _ & _ & Hh). exact Hh. }
  unfold reaction_limit. change 101%nat with (S (S 99)). rewrite reactions_head. cbn [fst].
  fold s1. rewrite T0. split; [|split].
  - apply reactions_keep_page_one; assumption.
  - intros k K1 K2. rewrite reactions_other_keys by assumption.
    unfold s1. rewrite handler_other_keys by assumption. reflexivity.
  - destruct (n =? 1)%Z; cbn [negb].
    + rewrite reactions_idle. cbn [fst]. rewrite H1. lia.
    + rewrite reactions_head. cbn [fst].
      assert (Q1 := handler_quiet c s0). cbv zeta in Q1. fold s1 in Q1.
      assert (T1 : snd (handler c s1) = false).
      { rewrite (handler_trig c s1 Q1), P1. unfold vue_assign. rewrite N1. cbn [strict_eq snd].
        now rewrite Z.eqb_refl, andb_false_r. }
      rewrite T1, reactions_idle. cbn [fst].
      destruct (handler_facts c s1) as (_ & _ & _ & Hh). rewrite Hh.
      destruct (handler_facts c s0) as (Hsu & _ & Hls & _). fold s1 in Hsu, Hls. rewrite Hsu.
      assert (L1 : listening s1 = true) by (rewrite Hls; exact Hl). rewrite L1.
      rewrite length_app, H1. simpl. lia.
Qed.

Lemma pop_without_state_witness :
  let c := mkConfig 1 "posts" 10 [] 3 "" "desc" "date" [] [] "https://example.org" "/" true in
  let s := fst (fst (run c "" [])) in
  let s' := fst (fst (step c (Pop None) (s, false))) in
  get_prop "pagenum" (params s') = Some (JNum 1)
  /\ length (history s') = (length (history s) + 1)%nat.
Proof.
  intros c s s'.
  destruct (pop_without_state c s false 3 ltac:(vm_compute; reflexivity) ltac:(vm_compute; reflexivity)
              ltac:(vm_compute; reflexivity) ltac:(vm_compute; reflexivity)) as (H1 & _ & H3).
  split; [exact H1 | exact H3].
Defined.
